(** * Batch driver for predicted sedimentation grids

    A shallow embedding of [02_generate_predicted_sedimentation_grids.py]:
    the time range, the command line built for the external predictor, the
    resolution of the worker count, the guarded creation of the output
    directories and the control flow around the worker pool. *)

From Stdlib Require Import ZArith List Ascii String Bool Lia DecimalString DecimalN.
From stdpp Require Import base decidable strings gmap.

Local Open Scope Z_scope.

(** ** Python values the driver handles *)

(** Exceptions that the modelled fragment of Python can raise. *)
Inductive exn :=
  | KeyboardInterrupt
  | TypeError (msg : string)
  | ValueError
  | OverflowError
  | NotImplementedError
  | NameError
  | FileExistsError
  | FileNotFoundError
  | FormatError
  | OtherError (what : string).

(** The result of evaluating a Python expression or statement. *)
Inductive outcome (A : Type) :=
  | Returns (a : A)
  | Raises (e : exn).
Arguments Returns {A} a.
Arguments Raises {A} e.

Definition bind {A B} (o : outcome A) (k : A -> outcome B) : outcome B :=
  match o with
  | Returns a => k a
  | Raises e => Raises e
  end.

Notation "'do' x <- o ; k" := (bind o (fun x => k))
  (at level 10, x name, o at level 100, k at level 200).

(** A float written in the source as a positional decimal literal:
    [(-1)^neg * digits * 10^(-scale)], so [61.17716597] is
    [{| f_neg := false; f_digits := 6117716597; f_scale := 8 |}]. *)
Record pyfloat := PyFloat { f_neg : bool; f_digits : N; f_scale : nat }.

(** An IEEE binary64 value: [(-1)^neg * m * 2^e], or an infinity. *)
Inductive double :=
  | Finite (neg : bool) (m e : Z)
  | Infinite (neg : bool).

(** [p / q] rounded to the nearest integer, ties to even ([0 < q]). *)
Definition round_half_even (p q : Z) : Z :=
  let d := p / q in
  let r := p mod q in
  if 2 * r <? q then d
  else if q <? 2 * r then d + 1
  else if Z.even d then d else d + 1.

(** [floor (log2 (p / q))] for positive [p], [q]. *)
Definition floor_log2_ratio (p q : Z) : Z :=
  let l := Z.log2 p - Z.log2 q in
  let below := if 0 <=? l then p <? q * 2 ^ l else p * 2 ^ (- l) <? q in
  if below then l - 1 else l.

(** The binary64 nearest to [p / q] (round to nearest, ties to even; the
    exponent is clamped at the subnormal range).  [None] when the rounded
    value does not fit, i.e. reaches [2^1024]. *)
Definition nearest_double (p q : Z) : option (Z * Z) :=
  if p =? 0 then Some (0, 0)
  else
    let e := Z.max (floor_log2_ratio p q - 52) (-1074) in
    let m := if 0 <=? e then round_half_even p (q * 2 ^ e)
             else round_half_even (p * 2 ^ (- e)) q in
    if 0 <=? e
    then (if m * 2 ^ e <? 2 ^ 1024 then Some (m, e) else None)
    else Some (m, e).

(** [float(t)] on a Python int: [PyLong_AsDouble] rounds to nearest even
    and raises [OverflowError] when the int is too large. *)
Definition float_of_int (t : Z) : outcome double :=
  match nearest_double (Z.abs t) 1 with
  | Some (m, e) => Returns (Finite (t <? 0) m e)
  | None => Raises OverflowError
  end.

(** The value of a float literal: the nearest binary64, or an infinity. *)
Definition float_of_literal (x : pyfloat) : double :=
  match nearest_double (Z.of_N (f_digits x)) (10 ^ Z.of_nat (f_scale x)) with
  | Some (m, e) => Finite (f_neg x) m e
  | None => Infinite (f_neg x)
  end.

(** ** Decimal printing *)

Definition digit_char (d : Z) : ascii :=
  ascii_of_nat (48 + Z.to_nat (d mod 10)).

(** The non-negative integer [n] in decimal, without leading zeros. *)
Definition decimal (n : Z) : string :=
  NilZero.string_of_uint (N.to_uint (Z.to_N n)).

(** Exactly [k] decimal digits of [n], most significant first. *)
Fixpoint fraction_digits (k : nat) (n : Z) : string :=
  match k with
  | O => EmptyString
  | S k' => String (digit_char (n / 10 ^ Z.of_nat k')) (fraction_digits k' n)
  end.

Definition sign_prefix (neg : bool) : string := if neg then "-" else "".

(** Python's ['{:.<prec>f}'.format(d)] on a float: the value correctly
    rounded (ties to even) to [prec] decimal places; no decimal point is
    printed when [prec] is 0. *)
Definition format_f (prec : nat) (d : double) : string :=
  match d with
  | Infinite neg => sign_prefix neg +:+ "inf"
  | Finite neg m e =>
      let scale := 10 ^ Z.of_nat prec in
      let n := if 0 <=? e then m * 2 ^ e * scale
               else round_half_even (m * scale) (2 ^ (- e)) in
      sign_prefix neg +:+ decimal (n / scale) +:+
      match prec with
      | O => ""
      | S _ => "." +:+ fraction_digits prec (n mod scale)
      end
  end.

(** ['{:.<prec>f}'.format(t)] on an int converts it to a float first. *)
Definition format_f_int (prec : nat) (t : Z) : outcome string :=
  do d <- float_of_int t; Returns (format_f prec d).

Definition format_f_float (prec : nat) (x : pyfloat) : string :=
  format_f prec (float_of_literal x).

(** Drop the trailing zeros of a digit string. *)
Fixpoint strip_trailing_zeros (s : string) : string :=
  match s with
  | EmptyString => EmptyString
  | String c s' =>
      match strip_trailing_zeros s' with
      | EmptyString => if Ascii.eqb c "0" then EmptyString else String c EmptyString
      | r => String c r
      end
  end.

(** ** [repr] of a float *)

(** A finite double [m * 2^e] as a fraction. *)
Definition double_ratio (m e : Z) : Z * Z :=
  if 0 <=? e then (m * 2 ^ e, 1) else (m, 2 ^ (- e)).

(** [10^x <= p / q]. *)
Definition pow10_le (x p q : Z) : bool :=
  if 0 <=? x then 10 ^ x * q <=? p else q <=? p * 10 ^ (- x).

Fixpoint raise_log10 (fuel : nat) (x p q : Z) : Z :=
  match fuel with
  | O => x
  | S fuel' => if pow10_le (x + 1) p q then raise_log10 fuel' (x + 1) p q else x
  end.

(** [floor (log10 (p / q))] for positive [p], [q]: an estimate from the
    binary logarithms that is at most four too low, then raised. *)
Definition floor_log10 (p q : Z) : Z :=
  raise_log10 8 ((Z.log2 p - Z.log2 q) * 30103 / 100000 - 2) p q.

(** The decimal [c * 10^(-k)] reads back as the double [m * 2^e]. *)
Definition reads_back (m e c k : Z) : bool :=
  match nearest_double (c * 10 ^ Z.max 0 (- k)) (10 ^ Z.max 0 k) with
  | Some (m', e') =>
      let '(p, q) := double_ratio m e in
      let '(p', q') := double_ratio m' e' in
      p * q' =? p' * q
  | None => false
  end.

(** The shortest decimal that reads back as [m * 2^e], tried with [n],
    [n + 1], ... significant digits; of the two neighbours with [n] digits
    the nearer one is preferred.  Seventeen digits always read back. *)
Fixpoint shortest_digits (fuel : nat) (n : Z) (m e d10 : Z) : Z * Z :=
  let k := n - 1 - d10 in
  let '(p, q) := double_ratio m e in
  let p' := if 0 <=? k then p * 10 ^ k else p in
  let q' := if 0 <=? k then q else q * 10 ^ (- k) in
  let c := round_half_even p' q' in
  match fuel with
  | O => (c, k)
  | S fuel' =>
      let other := if c * q' <=? p' then c + 1 else c - 1 in
      if reads_back m e c k then (c, k)
      else if reads_back m e other k then (other, k)
      else shortest_digits fuel' (n + 1) m e d10
  end.

Fixpoint zeros (k : nat) : string :=
  match k with
  | O => EmptyString
  | S k' => String "0" (zeros k')
  end.

Fixpoint take_string (n : nat) (s : string) : string :=
  match n, s with
  | S n', String c s' => String c (take_string n' s')
  | _, _ => EmptyString
  end.

Fixpoint drop_string (n : nat) (s : string) : string :=
  match n, s with
  | S n', String _ s' => drop_string n' s'
  | _, _ => s
  end.

Definition or_zero (s : string) : string :=
  match s with
  | EmptyString => "0"
  | _ => s
  end.

(** Digits [ds] with the decimal point after [decpt] of them, written
    without an exponent. *)
Definition positional (ds : string) (decpt : Z) : string :=
  let n := Z.of_nat (String.length ds) in
  or_zero (take_string (Z.to_nat decpt) (ds +:+ zeros (Z.to_nat (decpt - n))))
  +:+ "." +:+
  or_zero (zeros (Z.to_nat (- decpt)) +:+ drop_string (Z.to_nat decpt) ds).

(** The same digits in exponent notation: one digit before the point and
    an exponent of at least two digits. *)
Definition exponential (ds : string) (decpt : Z) : string :=
  let x := decpt - 1 in
  take_string 1 ds +:+
  match drop_string 1 ds with
  | EmptyString => ""
  | rest => "." +:+ rest
  end +:+
  "e" +:+ (if x <? 0 then "-" else "+") +:+
  (if Z.abs x <? 10 then "0" +:+ decimal (Z.abs x) else decimal (Z.abs x)).

(** Python's [repr] (and [str]) of a float: the shortest digits that read
    back, positional when the decimal point falls within the digits or up
    to four places before and sixteen places after their start, with an
    exponent otherwise. *)
Definition repr_double (d : double) : string :=
  match d with
  | Infinite neg => sign_prefix neg +:+ "inf"
  | Finite neg m e =>
      if m =? 0 then sign_prefix neg +:+ "0.0"
      else
        let '(p, q) := double_ratio m e in
        let '(c, k) := shortest_digits 16 1 m e (floor_log10 p q) in
        let decpt := Z.of_nat (String.length (decimal c)) - k in
        let ds := or_zero (strip_trailing_zeros (decimal c)) in
        sign_prefix neg +:+
        (if (-4 <? decpt) && (decpt <=? 16) then positional ds decpt
         else exponential ds decpt)
  end.

(** [str(x)] on a float. *)
Definition str_float (x : pyfloat) : string :=
  repr_double (float_of_literal x).

(** Float literals are written as in the source: [61.17716597%float];
    [-0.0] is Python's unary minus applied to the literal [0.0]. *)
Definition float_neg (x : pyfloat) : pyfloat :=
  PyFloat (negb (f_neg x)) (f_digits x) (f_scale x).

Definition pyfloat_of_number (n : Number.number) : option pyfloat :=
  match n with
  | Number.Decimal (Decimal.Decimal (Decimal.Pos whole) f) =>
      Some (PyFloat false (N.of_uint (Decimal.app whole f)) (Decimal.nb_digits f))
  | Number.Decimal (Decimal.Decimal (Decimal.Neg whole) f) =>
      Some (PyFloat true (N.of_uint (Decimal.app whole f)) (Decimal.nb_digits f))
  | _ => None
  end.

Definition number_of_pyfloat (x : pyfloat) : option Number.number := None.

Declare Scope float_scope.
Delimit Scope float_scope with float.
Number Notation pyfloat pyfloat_of_number number_of_pyfloat : float_scope.
Notation "- x" := (float_neg x) : float_scope.

(** ** Builtins: [range] and [os.path.join] *)

(** [len(range(start, stop, step))] for a non-zero step. *)
Definition range_length (start stop step : Z) : Z :=
  if 0 <? step
  then (if start <? stop then (stop - start - 1) / step + 1 else 0)
  else (if stop <? start then (start - stop - 1) / (- step) + 1 else 0).

(** [range(start, stop, step)]: [ValueError] on a zero step, else the items
    [start + i * step] for [i] below the length. *)
Definition range (start stop step : Z) : outcome (list Z) :=
  if step =? 0 then Raises ValueError
  else Returns (map (fun i => start + Z.of_nat i * step)
                    (seq 0 (Z.to_nat (range_length start stop step)))).

Definition starts_with_slash (s : string) : bool :=
  match s with
  | String c _ => Ascii.eqb c "/"
  | EmptyString => false
  end.

Fixpoint ends_with_slash (s : string) : bool :=
  match s with
  | EmptyString => false
  | String c EmptyString => Ascii.eqb c "/"
  | String _ s' => ends_with_slash s'
  end.

(** One step of [posixpath.join]: an absolute component replaces the path,
    otherwise it is appended after exactly one separator. *)
Definition join_component (path b : string) : string :=
  if starts_with_slash b then b
  else if String.eqb path "" || ends_with_slash path then path +:+ b
  else path +:+ "/" +:+ b.

Definition os_path_join (a : string) (p : list string) : string :=
  fold_left join_component p a.

(** ** User input *)

(** The values [use_all_cpus] is documented to take. *)
Inductive cpus_setting :=
  | CpusBool (b : bool)
  | CpusInt (n : Z).

Record configuration := Configuration {
  use_all_cpus : cpus_setting;
  output_base_dir : string;
  min_time : Z;
  max_time : Z;
  time_step : Z;
  generate_sediment_thickness_grids : bool;
  generate_sedimentation_rate_grids : bool;
  distance_grid_spacing : pyfloat;
  grid_spacing : pyfloat
}.

(** The settings as they stand in the script. *)
Definition user_input : configuration := {|
  use_all_cpus := CpusInt 4;
  output_base_dir := ".";
  min_time := 0;
  max_time := 250;
  time_step := 1;
  generate_sediment_thickness_grids := true;
  generate_sedimentation_rate_grids := true;
  distance_grid_spacing := 0.1%float;
  grid_spacing := 0.1%float
|}.

Definition sediment_output_sub_dir : string := "sedimentation_output".

(** What [str.format] makes of template text that was meant to be literal:
    [{{] and [}}] are escapes for one brace, and any other brace opens a
    replacement field the single argument [time] cannot satisfy, or is
    malformed; [FormatError] stands for the [ValueError], [IndexError] or
    [KeyError] Python raises then. *)
Fixpoint format_literal_text (s : string) : outcome string :=
  match s with
  | EmptyString => Returns EmptyString
  | String c s' =>
      if Ascii.eqb c "{" || Ascii.eqb c "}" then
        match s' with
        | String c' s'' =>
            if Ascii.eqb c' c
            then do r <- format_literal_text s''; Returns (String c r)
            else Raises FormatError
        | EmptyString => Raises FormatError
        end
      else do r <- format_literal_text s'; Returns (String c r)
  end.

(** ['{0}/distances_{1:.1f}d/mean_distance_{1:.1f}d_{{:.1f}}.nc'] is filled
    with the base directory and the spacing when the script is loaded; the
    result is filled with each [time] later, so the base directory is then
    read as template text. *)
Definition distance_grid_filenames_format (cfg : configuration) (time : Z)
  : outcome string :=
  do base <- format_literal_text (output_base_dir cfg);
  do t <- format_f_int 1 time;
  Returns (base +:+ "/distances_" +:+
           format_f_float 1 (distance_grid_spacing cfg) +:+ "d/mean_distance_" +:+
           format_f_float 1 (distance_grid_spacing cfg) +:+ "d_" +:+ t +:+ ".nc").

Definition age_grid_prefix : string :=
  "/Users/nickywright/Data/Age/Muller2019-Young2019-Cao2020_Agegrids/Muller2019-Young2019-Cao2020_netCDF/Muller2019-Young2019-Cao2020_AgeGrid-".

(** ['...AgeGrid-{:.0f}.nc'] filled with each [time]. *)
Definition age_grid_filenames_format (time : Z) : outcome string :=
  do t <- format_f_int 0 time;
  Returns (age_grid_prefix +:+ t +:+ ".nc").

(** ** The command line of one job *)

(** The argument tuple handed to [generate_predicted_sedimentation_grid]. *)
Record job := Job {
  time : Z;
  predict_sedimentation_script : string;
  scale_sedimentation_rate : option pyfloat;
  mean_age : pyfloat;
  mean_distance : pyfloat;
  variance_age : pyfloat;
  variance_distance : pyfloat;
  max_age : pyfloat;
  max_distance : pyfloat;
  age_distance_polynomial_coefficients : list pyfloat;
  output_file_basename_prefix : string
}.

(** ['{}_{:.1f}'.format(output_file_basename_prefix, time)]. *)
Definition output_filename_prefix (j : job) : outcome string :=
  do t <- format_f_int 1 (time j);
  Returns (output_file_basename_prefix j +:+ "_" +:+ t).

(** The arguments appended for the scale: only a sedimentation rate is
    scaled. *)
Definition scale_arguments (scale : option pyfloat) : list string :=
  match scale with
  | Some s => ["-s"; str_float s]
  | None => []
  end.

(** [command_line] as [generate_predicted_sedimentation_grid] builds it,
    in the order Python evaluates it; [executable] is [sys.executable]. *)
Definition command_line (executable : string) (cfg : configuration) (j : job)
  : outcome (list string) :=
  do distance_grid <- distance_grid_filenames_format cfg (time j);
  do age_grid <- age_grid_filenames_format (time j);
  let command :=
    [ executable;
      predict_sedimentation_script j;
      "-d";
      distance_grid;
      "-g";
      age_grid;
      "-i";
      str_float (grid_spacing cfg);
      "-w";
      "-m";
      str_float (mean_age j);
      str_float (mean_distance j);
      "-v";
      str_float (variance_age j);
      str_float (variance_distance j);
      "-x";
      str_float (max_age j);
      str_float (max_distance j);
      "-f" ] in
  let command := command ++ map str_float (age_distance_polynomial_coefficients j) in
  let command := command ++ scale_arguments (scale_sedimentation_rate j) in
  do prefix <- output_filename_prefix j;
  Returns (command ++ ["--"; prefix]).

(** ** The two modes and their parameters *)

Inductive mode := Rate | Thickness.

(** The values assigned at the head of each of the two blocks of the main
    program; [mode_sub_dir] and [mode_basename] are the literals of its
    [output_dir] and [output_file_basename_prefix]. *)
Record mode_parameters := ModeParameters {
  mp_script : string;
  mp_scale : option pyfloat;
  mp_mean_age : pyfloat;
  mp_mean_distance : pyfloat;
  mp_variance_age : pyfloat;
  mp_variance_distance : pyfloat;
  mp_max_age : pyfloat;
  mp_max_distance : pyfloat;
  mp_coefficients : list pyfloat;
  mp_sub_dir : string;
  mp_basename : string;
  mp_banner : string
}.

Definition rate_parameters : mode_parameters := {|
  mp_script := "predict_sedimentation_rate.py";
  mp_scale := Some 10.0%float;
  mp_mean_age := 61.17716597%float;
  mp_mean_distance := 1835.10750592%float;
  mp_variance_age := 1934.78513885%float;
  mp_variance_distance := 1207587.8548734%float;
  mp_max_age := 191.87276%float;
  mp_max_distance := 3000.0%float;
  mp_coefficients :=
    [ 1.350082937086441; -0.26385415; -0.07516542; 0.39197707; -0.15475392;
      0.0; -0.13196083; 0.02481208; -0.0; -0.47570021 ]%float;
  mp_sub_dir := "predicted_rate";
  mp_basename := "sed_rate_";
  mp_banner := "Generating predicted sedimentation rate grids..."
|}.

Definition thickness_parameters : mode_parameters := {|
  mp_script := "predict_sediment_thickness.py";
  mp_scale := None;
  mp_mean_age := 61.18406823%float;
  mp_mean_distance := 1835.28118479%float;
  mp_variance_age := 1934.6999014%float;
  mp_variance_distance := 1207521.8995806%float;
  mp_max_age := 191.87276%float;
  mp_max_distance := 3000.0%float;
  mp_coefficients :=
    [ 5.441401190368497; 0.46893096; -0.07320928; -0.24077496; -0.10840657;
      0.00381672; 0.06831728; 0.01179914; 0.01158149; -0.39880562 ]%float;
  mp_sub_dir := "predicted_thickness";
  mp_basename := "sed_thick_";
  mp_banner := "Generating predicted sediment thickness grids..."
|}.

Definition parameters (m : mode) : mode_parameters :=
  match m with
  | Rate => rate_parameters
  | Thickness => thickness_parameters
  end.

(** [os.path.join(output_base_dir, sediment_output_sub_dir)]. *)
Definition sediment_output_dir (cfg : configuration) : string :=
  os_path_join (output_base_dir cfg) [sediment_output_sub_dir].

(** [os.path.join(output_base_dir, sediment_output_sub_dir, 'predicted_...')]. *)
Definition output_dir (cfg : configuration) (m : mode) : string :=
  os_path_join (output_base_dir cfg)
               [sediment_output_sub_dir; mp_sub_dir (parameters m)].

(** [os.path.join(output_dir, 'sed_..._{:.1f}d'.format(grid_spacing))]. *)
Definition basename_prefix (cfg : configuration) (m : mode) : string :=
  os_path_join (output_dir cfg m)
    [mp_basename (parameters m) +:+ format_f_float 1 (grid_spacing cfg) +:+ "d"].

(** The tuple the main program makes for one [time]. *)
Definition job_at (cfg : configuration) (m : mode) (t : Z) : job := {|
  time := t;
  predict_sedimentation_script := mp_script (parameters m);
  scale_sedimentation_rate := mp_scale (parameters m);
  mean_age := mp_mean_age (parameters m);
  mean_distance := mp_mean_distance (parameters m);
  variance_age := mp_variance_age (parameters m);
  variance_distance := mp_variance_distance (parameters m);
  max_age := mp_max_age (parameters m);
  max_distance := mp_max_distance (parameters m);
  age_distance_polynomial_coefficients := mp_coefficients (parameters m);
  output_file_basename_prefix := basename_prefix cfg m
|}.

(** The generator expression [(... for time in times)]. *)
Definition jobs (cfg : configuration) (m : mode) (times : list Z) : list job :=
  map (job_at cfg m) times.

(** [times = range(min_time, max_time + 1, time_step)]. *)
Definition times (cfg : configuration) : outcome (list Z) :=
  range (min_time cfg) (max_time cfg + 1) (time_step cfg).

(** ** Effects: the file system, the pool and the trace of calls *)

(** What the script does to the world, in program order. *)
Inductive event :=
  | Print (text : string)
  | Mkdir (path : string)
  | PoolNew (processes : Z)
  | MapAsync (tasks : list job) (chunksize : Z)
  | PoolGet (timeout : Z)
  | PoolClose (owner : mode)
  | PoolJoin (owner : mode)
  | CallSystemCommand (command : list string).

(** The paths that exist, and the binding of the global [pool]: unbound,
    or the pool made in the block of the given mode. *)
Record world := World {
  fs : gset string;
  pool : option mode
}.

(** What the script cannot decide: the interpreter it runs under, the
    core count, how the external calls and the pool calls end, and what
    the operating system has against an [os.mkdir] besides an existing path
    and a missing parent (a dangling symbolic link at the path, a parent
    that is a file, missing rights). *)
Record environment := Environment {
  sys_executable : string;
  cpu_count : outcome Z;
  call_system_command : list string -> outcome unit;
  pool_new : mode -> outcome unit;
  pool_map_async : mode -> outcome unit;
  pool_get : mode -> outcome unit;
  pool_close_result : mode -> outcome unit;
  pool_join_result : mode -> outcome unit;
  mkdir_refusal : string -> option exn
}.

(** Statements: a world in, a world, the events and an outcome out. *)
Definition exec (A : Type) : Type := world -> world * list event * outcome A.

Definition ret {A} (a : A) : exec A := fun w => (w, [], Returns a).
Definition raise {A} (e : exn) : exec A := fun w => (w, [], Raises e).
Definition lift {A} (o : outcome A) : exec A := fun w => (w, [], o).
Definition emit (ev : event) : exec unit := fun w => (w, [ev], Returns tt).

Definition seq_exec {A B} (c : exec A) (k : A -> exec B) : exec B :=
  fun w =>
    match c w with
    | (w1, tr1, Returns a) =>
        match k a w1 with
        | (w2, tr2, o) => (w2, tr1 ++ tr2, o)
        end
    | (w1, tr1, Raises e) => (w1, tr1, Raises e)
    end.

Notation "'run' x <- c ; k" := (seq_exec c (fun x => k))
  (at level 10, x name, c at level 100, k at level 200).
Notation "c ;; k" := (seq_exec c (fun _ => k))
  (at level 100, k at level 200, right associativity).

(** [try: body / except KeyboardInterrupt: pass]. *)
Definition except_keyboard_interrupt (body : exec unit) : exec unit :=
  fun w =>
    match body w with
    | (w1, tr1, Raises KeyboardInterrupt) => (w1, tr1, Returns tt)
    | r => r
    end.

(** [try: body / finally: cleanup]: the cleanup runs on every path, and an
    exception it raises replaces the outcome of the body. *)
Definition finally (body cleanup : exec unit) : exec unit :=
  fun w =>
    match body w with
    | (w1, tr1, o) =>
        match cleanup w1 with
        | (w2, tr2, Returns _) => (w2, tr1 ++ tr2, o)
        | (w2, tr2, Raises e) => (w2, tr1 ++ tr2, Raises e)
        end
    end.

(** [for x in xs: body(x)]. *)
Fixpoint for_each {A} (xs : list A) (body : A -> exec unit) : exec unit :=
  match xs with
  | [] => ret tt
  | x :: xs' => body x ;; for_each xs' body
  end.

(** *** Directories *)

(** [p[:p.rfind('/') + 1]]. *)
Fixpoint up_to_last_slash (p : string) : string :=
  match p with
  | EmptyString => EmptyString
  | String c p' =>
      match up_to_last_slash p' with
      | EmptyString => if Ascii.eqb c "/" then String c EmptyString else EmptyString
      | h => String c h
      end
  end.

(** [s.rstrip('/')]. *)
Fixpoint rstrip_slash (s : string) : string :=
  match s with
  | EmptyString => EmptyString
  | String c s' =>
      match rstrip_slash s' with
      | EmptyString => if Ascii.eqb c "/" then EmptyString else String c EmptyString
      | r => String c r
      end
  end.

(** [posixpath.dirname]. *)
Definition dirname (p : string) : string :=
  let head := up_to_last_slash p in
  match rstrip_slash head with
  | EmptyString => head
  | stripped => stripped
  end.

(** [os.path.exists(path)]. *)
Definition os_path_exists (path : string) : exec bool :=
  fun w => (w, [], Returns (bool_decide (path ∈ fs w))).

(** [os.mkdir(path)]: the path must be new, the operating system must
    have nothing else against the call and the parent must exist; a path
    without a directory part lies in the current directory. *)
Definition os_mkdir (env : environment) (path : string) : exec unit :=
  fun w =>
    if bool_decide (path ∈ fs w) then (w, [Mkdir path], Raises FileExistsError)
    else
      match mkdir_refusal env path with
      | Some e => (w, [Mkdir path], Raises e)
      | None =>
          if String.eqb (dirname path) "" || bool_decide (dirname path ∈ fs w)
          then (World ({[ path ]} ∪ fs w) (pool w), [Mkdir path], Returns tt)
          else (w, [Mkdir path], Raises FileNotFoundError)
      end.

(** [if not os.path.exists(d): print(...); os.mkdir(d)]. *)
Definition ensure_directory (env : environment) (d : string) : exec unit :=
  run present <- os_path_exists d;
  if present then ret tt
  else emit (Print (d +:+ " does not exist, creating now... ")) ;; os_mkdir env d.

(** *** Worker count *)

(** The truth value of [use_all_cpus] in [if use_all_cpus:]. *)
Definition truthy (u : cpus_setting) : bool :=
  match u with
  | CpusBool b => b
  | CpusInt n => negb (n =? 0)
  end.

(** [str(n)] on an int. *)
Definition str_int (n : Z) : string :=
  sign_prefix (n <? 0) +:+ decimal (Z.abs n).

(** [str(u)] as the error message shows the setting. *)
Definition str_setting (u : cpus_setting) : string :=
  match u with
  | CpusBool true => "True"
  | CpusBool false => "False"
  | CpusInt n => str_int n
  end.

(** The body of [if use_all_cpus:] up to the assignment of [num_cpus]. *)
Definition num_cpus (env : environment) (u : cpus_setting) : outcome Z :=
  match u with
  | CpusBool _ =>
      match cpu_count env with
      | Raises NotImplementedError => Returns 1
      | o => o
      end
  | CpusInt n =>
      if 0 <? n then Returns n
      else Raises (TypeError ("use_all_cpus: " +:+ str_setting u +:+
                              " is neither a bool nor a positive integer"))
  end.

(** How the jobs of one mode are run: on a pool of the given size, or one
    after another in the calling process. *)
Inductive workers :=
  | PoolOf (processes : Z)
  | Sequential.

(** [if use_all_cpus: <num_cpus is set> ... else: <plain loop>]. *)
Definition resolve_workers (env : environment) (u : cpus_setting)
  : outcome workers :=
  if truthy u then do n <- num_cpus env u; Returns (PoolOf n)
  else Returns Sequential.

(** The number of processes that run jobs at a time. *)
Definition effective_workers (r : workers) : Z :=
  match r with
  | PoolOf n => n
  | Sequential => 1
  end.

(** *** Running the jobs *)

(** [generate_predicted_sedimentation_grid]: build the command line and
    hand it to [call_system_command]. *)
Definition generate_predicted_sedimentation_grid
    (env : environment) (cfg : configuration) (j : job) : exec unit :=
  run command <- lift (command_line (sys_executable env) cfg j);
  emit (CallSystemCommand command) ;;
  lift (call_system_command env command).

(** The single-argument wrapper the pool calls in a worker. *)
Definition generate_predicted_sedimentation_grid_parallel_pool_function
    (env : environment) (cfg : configuration) (j : job) : exec unit :=
  except_keyboard_interrupt (generate_predicted_sedimentation_grid env cfg j).

(** [pool = multiprocessing.Pool(num_cpus, initializer=low_priority)]:
    the name is bound only once the constructor has returned. *)
Definition new_pool (env : environment) (m : mode) (n : Z) : exec unit :=
  emit (PoolNew n) ;;
  lift (pool_new env m) ;;
  fun w => (World (fs w) (Some m), [], Returns tt).

(** [pool.close()] and [pool.join()] look the global [pool] up; the call
    itself ends as the environment has it (a join can be interrupted). *)
Definition pool_close (env : environment) : exec unit :=
  fun w =>
    match pool w with
    | Some p => (w, [PoolClose p], pool_close_result env p)
    | None => (w, [], Raises NameError)
    end.

Definition pool_join (env : environment) : exec unit :=
  fun w =>
    match pool w with
    | Some p => (w, [PoolJoin p], pool_join_result env p)
    | None => (w, [], Raises NameError)
    end.

(** The [try] / [except KeyboardInterrupt] / [finally] block around the
    pool. *)
Definition pool_dispatch
    (env : environment) (cfg : configuration) (m : mode) (n : Z)
    (ts : list Z) : exec unit :=
  finally
    (except_keyboard_interrupt
       (new_pool env m n ;;
        emit (MapAsync (jobs cfg m ts) 1) ;;
        lift (pool_map_async env m) ;;
        emit (PoolGet 999999) ;;
        lift (pool_get env m)))
    (pool_close env ;; pool_join env).

(** What a block of the main program does once its output directory is
    there: announce the mode, settle the workers and run the jobs. *)
Definition dispatch
    (env : environment) (cfg : configuration) (m : mode) (ts : list Z)
  : exec unit :=
  emit (Print (mp_banner (parameters m))) ;;
  run r <- lift (resolve_workers env (use_all_cpus cfg));
  match r with
  | PoolOf n => pool_dispatch env cfg m n ts
  | Sequential =>
      for_each (jobs cfg m ts) (generate_predicted_sedimentation_grid env cfg)
  end.

(** One of the two blocks [if generate_..._grids:] of the main program. *)
Definition run_mode
    (env : environment) (cfg : configuration) (m : mode) (ts : list Z)
  : exec unit :=
  ensure_directory env (output_dir cfg m) ;;
  dispatch env cfg m ts.

(** Whether the block of a mode is switched on. *)
Definition enabled (cfg : configuration) (m : mode) : bool :=
  match m with
  | Rate => generate_sedimentation_rate_grids cfg
  | Thickness => generate_sediment_thickness_grids cfg
  end.

(** The script from top to bottom. *)
Definition main (env : environment) (cfg : configuration) : exec unit :=
  ensure_directory env (sediment_output_dir cfg) ;;
  run ts <- lift (times cfg);
  (if enabled cfg Rate then run_mode env cfg Rate ts else ret tt) ;;
  (if enabled cfg Thickness then run_mode env cfg Thickness ts else ret tt).

(** ** Vocabulary of the properties *)

Definition is_digit (c : ascii) : bool :=
  (48 <=? nat_of_ascii c)%nat && (nat_of_ascii c <=? 57)%nat.

Fixpoint all_digits (s : string) : bool :=
  match s with
  | EmptyString => true
  | String c s' => is_digit c && all_digits s'
  end.

(** [s] is a number in fixed notation with exactly [k] decimal places: an
    optional sign, at least one digit, and, unless [k] is 0, a point
    followed by [k] digits. *)
Definition decimal_places (k : nat) (s : string) : Prop :=
  exists neg whole frac,
    s = sign_prefix neg +:+ whole +:+
        match k with O => "" | S _ => "." +:+ frac end
    /\ whole <> "" /\ all_digits whole = true
    /\ all_digits frac = true /\ String.length frac = k.

(** The distance grid path once the base directory has been read as
    template text ([base]) and the time converted to a float ([d]). *)
Definition distance_grid_path (cfg : configuration) (base : string) (d : double)
  : string :=
  base +:+ "/distances_" +:+
  format_f_float 1 (distance_grid_spacing cfg) +:+ "d/mean_distance_" +:+
  format_f_float 1 (distance_grid_spacing cfg) +:+ "d_" +:+ format_f 1 d +:+ ".nc".

(** The age grid path for a time converted to the float [d]. *)
Definition age_grid_path (d : double) : string :=
  age_grid_prefix +:+ format_f 0 d +:+ ".nc".

(** The arguments the external predictor receives: the command line
    without the interpreter and the script. *)
Definition predictor_arguments (command : list string) : list string :=
  skipn 2 command.

(** The command passes a scale factor to the predictor. *)
Definition has_scale_argument (command : list string) : bool :=
  existsb (String.eqb "-s") (predictor_arguments command).


Definition is_mkdir (ev : event) : bool :=
  match ev with
  | Mkdir _ => true
  | _ => false
  end.

(** The event starts a job: a batch handed to the pool, or one external
    call in the plain loop. *)
Definition is_dispatch (ev : event) : bool :=
  match ev with
  | MapAsync _ _ | CallSystemCommand _ => true
  | _ => false
  end.

(** The output directories the configuration uses all exist. *)
Definition populated (cfg : configuration) (w : world) : Prop :=
  sediment_output_dir cfg ∈ fs w
  /\ forall m, enabled cfg m = true -> output_dir cfg m ∈ fs w.

(** The statement creates no directory: it leaves the set of existing
    paths as it is and makes no [os.mkdir] call. *)
Definition keeps_directories {A} (c : exec A) : Prop :=
  forall w w' trace result,
    c w = (w', trace, result) -> fs w' = fs w /\ filter is_mkdir trace = [].

(** The script with its three directory checks left out. *)
Definition run_jobs (env : environment) (cfg : configuration) : exec unit :=
  run ts <- lift (times cfg);
  (if enabled cfg Rate then dispatch env cfg Rate ts else ret tt) ;;
  (if enabled cfg Thickness then dispatch env cfg Thickness ts else ret tt).

(** An environment in which nothing fails. *)
Definition calm : environment := {|
  sys_executable := "/usr/bin/python3";
  cpu_count := Returns 8;
  call_system_command := fun _ => Returns tt;
  pool_new := fun _ => Returns tt;
  pool_map_async := fun _ => Returns tt;
  pool_get := fun _ => Returns tt;
  pool_close_result := fun _ => Returns tt;
  pool_join_result := fun _ => Returns tt;
  mkdir_refusal := fun _ => None
|}.

(** A fresh checkout: only the current directory exists and no pool has
    been made. *)
Definition fresh : world := World {[ "." ]} None.

(** An environment in which the user interrupts the wait for the pool. *)
Definition interrupted : environment := {|
  sys_executable := "/usr/bin/python3";
  cpu_count := Returns 8;
  call_system_command := fun _ => Returns tt;
  pool_new := fun _ => Returns tt;
  pool_map_async := fun _ => Returns tt;
  pool_get := fun _ => Raises KeyboardInterrupt;
  pool_close_result := fun _ => Returns tt;
  pool_join_result := fun _ => Returns tt;
  mkdir_refusal := fun _ => None
|}.

(** The output tree after a complete run of the script as it stands. *)
Definition complete : world :=
  World {[ ".";
           "./sedimentation_output";
           "./sedimentation_output/predicted_rate";
           "./sedimentation_output/predicted_thickness" ]} None.

(** The script as it stands, with [use_all_cpus = 0]. *)
Definition zero_cpus : configuration := {|
  use_all_cpus := CpusInt 0;
  output_base_dir := ".";
  min_time := 0;
  max_time := 250;
  time_step := 1;
  generate_sediment_thickness_grids := true;
  generate_sedimentation_rate_grids := true;
  distance_grid_spacing := 0.1%float;
  grid_spacing := 0.1%float
|}.

(** The script as it stands, for the times 0, 1 and 2 and the thickness
    mode alone. *)
Definition thickness_scenario : configuration := {|
  use_all_cpus := CpusInt 4;
  output_base_dir := ".";
  min_time := 0;
  max_time := 2;
  time_step := 1;
  generate_sediment_thickness_grids := true;
  generate_sedimentation_rate_grids := false;
  distance_grid_spacing := 0.1%float;
  grid_spacing := 0.1%float
|}.

(** The string holds no brace, so [str.format] reads all of it as text. *)
Fixpoint brace_free (s : string) : bool :=
  match s with
  | EmptyString => true
  | String c s' => negb (Ascii.eqb c "{" || Ascii.eqb c "}") && brace_free s'
  end.

(** [try: ... except KeyboardInterrupt: pass] applied to an outcome. *)
Definition swallow_interrupt (o : outcome unit) : outcome unit :=
  match o with
  | Raises KeyboardInterrupt => Returns tt
  | _ => o
  end.

(** An environment in which no worker process can be started. *)
Definition no_processes : environment := {|
  sys_executable := "/usr/bin/python3";
  cpu_count := Returns 8;
  call_system_command := fun _ => Returns tt;
  pool_new := fun _ => Raises (OtherError "OSError");
  pool_map_async := fun _ => Returns tt;
  pool_get := fun _ => Returns tt;
  pool_close_result := fun _ => Returns tt;
  pool_join_result := fun _ => Returns tt;
  mkdir_refusal := fun _ => None
|}.

(** An environment in which the external predictor fails on the grid of
    time 1 and on no other. *)
Definition failing_at_one : environment := {|
  sys_executable := "/usr/bin/python3";
  cpu_count := Returns 8;
  call_system_command := fun command =>
    if existsb (String.eqb "./distances_0.1d/mean_distance_0.1d_1.0.nc") command
    then Raises (OtherError "predictor failed") else Returns tt;
  pool_new := fun _ => Returns tt;
  pool_map_async := fun _ => Returns tt;
  pool_get := fun _ => Returns tt;
  pool_close_result := fun _ => Returns tt;
  pool_join_result := fun _ => Returns tt;
  mkdir_refusal := fun _ => None
|}.

(** The script as it stands, asked to go from 10 down to 0. *)
Definition descending : configuration := {|
  use_all_cpus := CpusInt 4;
  output_base_dir := ".";
  min_time := 10;
  max_time := 0;
  time_step := -1;
  generate_sediment_thickness_grids := true;
  generate_sedimentation_rate_grids := true;
  distance_grid_spacing := 0.1%float;
  grid_spacing := 0.1%float
|}.

(** The script as it stands, with [time_step = 0]. *)
Definition stalled : configuration := {|
  use_all_cpus := CpusInt 4;
  output_base_dir := ".";
  min_time := 0;
  max_time := 250;
  time_step := 0;
  generate_sediment_thickness_grids := true;
  generate_sedimentation_rate_grids := true;
  distance_grid_spacing := 0.1%float;
  grid_spacing := 0.1%float
|}.

(** The script as it stands, with [use_all_cpus = -2]. *)
Definition negative_cpus : configuration := {|
  use_all_cpus := CpusInt (-2);
  output_base_dir := ".";
  min_time := 0;
  max_time := 250;
  time_step := 1;
  generate_sediment_thickness_grids := true;
  generate_sedimentation_rate_grids := true;
  distance_grid_spacing := 0.1%float;
  grid_spacing := 0.1%float
|}.

(** The script as it stands, without a pool, for the times 0, 1 and 2. *)
Definition plain_loop : configuration := {|
  use_all_cpus := CpusBool false;
  output_base_dir := ".";
  min_time := 0;
  max_time := 2;
  time_step := 1;
  generate_sediment_thickness_grids := true;
  generate_sedimentation_rate_grids := true;
  distance_grid_spacing := 0.1%float;
  grid_spacing := 0.1%float
|}.

(** The command lines of the jobs, for those that can be built. *)
Definition built_commands
    (executable : string) (cfg : configuration) (js : list job)
  : list (list string) :=
  flat_map (fun j => match command_line executable cfg j with
                     | Returns c => [c]
                     | Raises _ => []
                     end) js.

(** The events of the [finally] clause for the pool [p]: the join is
    reached only when the close returned. *)
Definition cleanup_trace (env : environment) (p : mode) : list event :=
  match pool_close_result env p with
  | Returns _ => [PoolClose p; PoolJoin p]
  | Raises _ => [PoolClose p]
  end.

(** The outcome of a [try] block that ended with [o] after the [finally]
    clause for the pool [p]: an exception of the close or of the join
    replaces [o]. *)
Definition cleanup_result (env : environment) (p : mode) (o : outcome unit)
  : outcome unit :=
  match pool_close_result env p with
  | Raises e => Raises e
  | Returns _ =>
      match pool_join_result env p with
      | Raises e => Raises e
      | Returns _ => o
      end
  end.

(** An environment in which nothing outside the script fails. *)
Record quiet (env : environment) : Prop := Quiet {
  quiet_call : forall command, call_system_command env command = Returns tt;
  quiet_new : forall m, pool_new env m = Returns tt;
  quiet_map_async : forall m, pool_map_async env m = Returns tt;
  quiet_get : forall m, pool_get env m = Returns tt;
  quiet_close : forall m, pool_close_result env m = Returns tt;
  quiet_join : forall m, pool_join_result env m = Returns tt;
  quiet_mkdir : forall path, mkdir_refusal env path = None
}.

(** The events of one block of the main program, after its directory
    check, when nothing fails. *)
Definition dispatch_trace
    (executable : string) (cfg : configuration) (m : mode) (ts : list Z)
    (r : workers) : list event :=
  Print (mp_banner (parameters m)) ::
  match r with
  | PoolOf n =>
      [PoolNew n; MapAsync (jobs cfg m ts) 1; PoolGet 999999;
       PoolClose m; PoolJoin m]
  | Sequential =>
      map CallSystemCommand (built_commands executable cfg (jobs cfg m ts))
  end.

(** The same for the two blocks in turn, each if it is switched on. *)
Definition jobs_trace
    (executable : string) (cfg : configuration) (ts : list Z) (r : workers)
  : list event :=
  (if enabled cfg Rate then dispatch_trace executable cfg Rate ts r else [])
  ++ (if enabled cfg Thickness then dispatch_trace executable cfg Thickness ts r
      else []).

(** The argument that follows the first occurrence of a flag. *)
Fixpoint argument_after (flag : string) (arguments : list string) : option string :=
  match arguments with
  | [] => None
  | a :: rest =>
      if String.eqb flag a
      then match rest with
           | value :: _ => Some value
           | [] => None
           end
      else argument_after flag rest
  end.

(** The scale factor the command passes to the predictor, if any. *)
Definition scale_argument (command : list string) : option string :=
  argument_after "-s" (predictor_arguments command).

(** An environment in which the user interrupts the start of the pool. *)
Definition interrupted_at_start : environment := {|
  sys_executable := "/usr/bin/python3";
  cpu_count := Returns 8;
  call_system_command := fun _ => Returns tt;
  pool_new := fun _ => Raises KeyboardInterrupt;
  pool_map_async := fun _ => Returns tt;
  pool_get := fun _ => Returns tt;
  pool_close_result := fun _ => Returns tt;
  pool_join_result := fun _ => Returns tt;
  mkdir_refusal := fun _ => None
|}.

(** An environment in which the user interrupts the wait for the pool and,
    once more, the join. *)
Definition interrupted_twice : environment := {|
  sys_executable := "/usr/bin/python3";
  cpu_count := Returns 8;
  call_system_command := fun _ => Returns tt;
  pool_new := fun _ => Returns tt;
  pool_map_async := fun _ => Returns tt;
  pool_get := fun _ => Raises KeyboardInterrupt;
  pool_close_result := fun _ => Returns tt;
  pool_join_result := fun _ => Raises KeyboardInterrupt;
  mkdir_refusal := fun _ => None
|}.


(** * Properties *)

(** ** Strings *)

#[local] Arguments String.append : simpl nomatch.

Lemma length_append (a b : string) :
  String.length (a +:+ b) = (String.length a + String.length b)%nat.
Proof.
  induction a as [|c a IH]; simpl; [reflexivity | now rewrite IH].
Qed.


(** ** Decimal printing *)

Lemma digit_char_is_digit (d : Z) : is_digit (digit_char d) = true.
Proof.
  unfold digit_char.
  set (k := Z.to_nat (d mod 10)).
  assert (H : (k < 10)%nat)
    by (pose proof (Z.mod_pos_bound d 10); lia).
  clearbody k.
  repeat (destruct k as [|k]; [reflexivity|]).
  lia.
Qed.

Lemma all_digits_uint (u : Decimal.uint) :
  all_digits (NilEmpty.string_of_uint u) = true.
Proof.
  induction u; simpl; auto.
Qed.

Lemma decimal_digits (n : Z) :
  decimal n <> "" /\ all_digits (decimal n) = true.
Proof.
  unfold decimal, NilZero.string_of_uint.
  destruct (N.to_uint (Z.to_N n)) as [|u|u|u|u|u|u|u|u|u|u] eqn:E;
    (split; [discriminate | try reflexivity]);
    rewrite <- E; apply all_digits_uint.
Qed.

Lemma fraction_digits_spec (k : nat) (n : Z) :
  all_digits (fraction_digits k n) = true
  /\ String.length (fraction_digits k n) = k.
Proof.
  induction k as [|k [IHd IHl]]; cbn [fraction_digits all_digits String.length];
    [split; reflexivity|].
  rewrite digit_char_is_digit, IHd, IHl. split; reflexivity.
Qed.

(** A finite float printed with ['{:.<prec>f}'] shows exactly [prec]
    decimal places. *)
Lemma format_f_decimal_places (prec : nat) (neg : bool) (m e : Z) :
  decimal_places prec (format_f prec (Finite neg m e)).
Proof.
  unfold format_f.
  set (scale := 10 ^ Z.of_nat prec).
  set (n := if 0 <=? e then _ else _).
  exists neg, (decimal (n / scale)), (fraction_digits prec (n mod scale)).
  destruct (decimal_digits (n / scale)) as [Hne Hd].
  destruct (fraction_digits_spec prec (n mod scale)) as [Hfd Hfl].
  repeat split; auto.
Qed.

Lemma float_of_int_finite (t : Z) (d : double) :
  float_of_int t = Returns d -> exists m e, d = Finite (t <? 0) m e.
Proof.
  unfold float_of_int.
  destruct (nearest_double (Z.abs t) 1) as [[m e]|]; [|discriminate].
  intros [= <-]. eauto.
Qed.

(** ** The command line *)

Section CommandLine.

Variables (executable : string) (cfg : configuration) (j : job).
Variables (base : string) (d : double).
Hypothesis base_ok : format_literal_text (output_base_dir cfg) = Returns base.
Hypothesis time_ok : float_of_int (time j) = Returns d.

Lemma distance_grid_returns :
  distance_grid_filenames_format cfg (time j) =
  Returns (distance_grid_path cfg base d).
Proof using base_ok time_ok.
  unfold distance_grid_filenames_format, format_f_int.
  rewrite base_ok, time_ok. reflexivity.
Qed.

Lemma age_grid_returns :
  age_grid_filenames_format (time j) = Returns (age_grid_path d).
Proof using time_ok.
  unfold age_grid_filenames_format, format_f_int.
  rewrite time_ok. reflexivity.
Qed.

Lemma output_filename_prefix_returns :
  output_filename_prefix j =
  Returns (output_file_basename_prefix j +:+ "_" +:+ format_f 1 d).
Proof using time_ok.
  unfold output_filename_prefix, format_f_int.
  rewrite time_ok. reflexivity.
Qed.

(** The builder returns whenever the base directory is sound template
    text and the time fits a float. *)
Lemma command_line_returns :
  command_line executable cfg j =
  Returns
    ([ executable; predict_sedimentation_script j;
       "-d"; distance_grid_path cfg base d;
       "-g"; age_grid_path d;
       "-i"; str_float (grid_spacing cfg);
       "-w";
       "-m"; str_float (mean_age j); str_float (mean_distance j);
       "-v"; str_float (variance_age j); str_float (variance_distance j);
       "-x"; str_float (max_age j); str_float (max_distance j);
       "-f" ]
     ++ map str_float (age_distance_polynomial_coefficients j)
     ++ scale_arguments (scale_sedimentation_rate j)
     ++ ["--"; output_file_basename_prefix j +:+ "_" +:+ format_f 1 d]).
Proof using base_ok time_ok.
  unfold command_line.
  rewrite distance_grid_returns, age_grid_returns, output_filename_prefix_returns.
  cbn [bind]. rewrite <- !app_assoc. reflexivity.
Qed.

End CommandLine.

(** The scale flag is no other argument of the command line. *)

Lemma flag_differs_from_long (s : string) :
  (2 < String.length s)%nat -> String.eqb "-s" s = false.
Proof.
  intros H. apply String.eqb_neq. intros E. rewrite <- E in H. simpl in H. lia.
Qed.

Lemma decimal_places_length (k : nat) (s : string) :
  decimal_places k s -> (k < String.length s)%nat.
Proof.
  intros (neg & whole & frac & -> & Hne & _ & _ & Hlen).
  rewrite !length_append.
  assert (0 < String.length whole)%nat by (destruct whole; [congruence | simpl; lia]).
  destruct k; [lia|]. rewrite length_append, Hlen. simpl. lia.
Qed.

Lemma or_zero_length (s : string) : (0 < String.length (or_zero s))%nat.
Proof.
  destruct s; cbn; lia.
Qed.

Lemma positional_length (ds : string) (decpt : Z) :
  (2 < String.length (positional ds decpt))%nat.
Proof.
  unfold positional. rewrite !length_append.
  pose proof (or_zero_length
    (take_string (Z.to_nat decpt)
       (ds +:+ zeros (Z.to_nat (decpt - Z.of_nat (String.length ds)))))).
  pose proof (or_zero_length
    (zeros (Z.to_nat (- decpt)) +:+ drop_string (Z.to_nat decpt) ds)).
  change (String.length ".") with 1%nat. lia.
Qed.

Lemma exponential_length (ds : string) (decpt : Z) :
  (2 < String.length (exponential ds decpt))%nat.
Proof.
  unfold exponential. rewrite !length_append.
  change (String.length "e") with 1%nat.
  assert (String.length (if decpt - 1 <? 0 then "-" else "+") = 1%nat) as ->
    by (destruct (decpt - 1 <? 0); reflexivity).
  assert (0 < String.length
                (if (Z.abs (decpt - 1) <? 10)%Z
                 then "0" +:+ decimal (Z.abs (decpt - 1)%Z)
                 else decimal (Z.abs (decpt - 1)%Z)))%nat.
  { destruct (Z.abs (decpt - 1) <? 10).
    - rewrite length_append. change (String.length "0") with 1%nat. lia.
    - destruct (decimal_digits (Z.abs (decpt - 1))) as [Hne _].
      destruct (decimal (Z.abs (decpt - 1))); [congruence | cbn; lia]. }
  lia.
Qed.

Lemma str_float_length (x : pyfloat) : (2 < String.length (str_float x))%nat.
Proof.
  unfold str_float, repr_double.
  destruct (float_of_literal x) as [neg m e|neg].
  - destruct (m =? 0).
    + rewrite length_append. change (String.length "0.0") with 3%nat. lia.
    + destruct (double_ratio m e) as [p q].
      destruct (shortest_digits 16 1 m e (floor_log10 p q)) as [c k].
      rewrite length_append.
      match goal with |- context [if ?b then _ else _] => destruct b end.
      * pose proof (positional_length
                      (or_zero (strip_trailing_zeros (decimal c)))
                      (Z.of_nat (String.length (decimal c)) - k)). lia.
      * pose proof (exponential_length
                      (or_zero (strip_trailing_zeros (decimal c)))
                      (Z.of_nat (String.length (decimal c)) - k)). lia.
  - rewrite length_append. change (String.length "inf") with 3%nat. lia.
Qed.

Lemma no_flag_among_floats (xs : list pyfloat) :
  existsb (String.eqb "-s") (map str_float xs) = false.
Proof.
  induction xs as [|x xs IH]; [reflexivity|].
  cbn [map existsb].
  rewrite (flag_differs_from_long _ (str_float_length x)), IH. reflexivity.
Qed.

(** A command line passes a scale factor exactly when the job has one. *)
Lemma has_scale_argument_spec
    (executable : string) (cfg : configuration) (j : job) (base : string)
    (d : double) (command : list string) :
  format_literal_text (output_base_dir cfg) = Returns base ->
  float_of_int (time j) = Returns d ->
  command_line executable cfg j = Returns command ->
  has_scale_argument command =
    match scale_sedimentation_rate j with Some _ => true | None => false end.
Proof.
  intros Hb Ht. rewrite (command_line_returns executable cfg j base d Hb Ht).
  intros [= <-].
  destruct (float_of_int_finite _ _ Ht) as (m & e & ->).
  set (dg := distance_grid_path _ _ _).
  set (ag := age_grid_path _).
  set (p := output_file_basename_prefix j +:+ _).
  assert (Hd : String.eqb "-s" dg = false).
  { apply flag_differs_from_long. unfold dg, distance_grid_path.
    rewrite !length_append. change (String.length "/distances_") with 11%nat. lia. }
  assert (Ha : String.eqb "-s" ag = false).
  { apply flag_differs_from_long. unfold ag, age_grid_path.
    rewrite !length_append. change (String.length ".nc") with 3%nat. lia. }
  assert (Hp : String.eqb "-s" p = false).
  { apply flag_differs_from_long. unfold p.
    rewrite length_append. cbn [String.length].
    pose proof (decimal_places_length _ _ (format_f_decimal_places 1 (time j <? 0) m e)).
    lia. }
  unfold has_scale_argument, predictor_arguments.
  cbn [skipn app existsb].
  rewrite !existsb_app, no_flag_among_floats.
  cbn [existsb].
  rewrite !(flag_differs_from_long _ (str_float_length _)), Hd, Ha, Hp.
  destruct (scale_sedimentation_rate j); reflexivity.
Qed.

Lemma argument_after_skip (flag : string) (before rest : list string) :
  existsb (String.eqb flag) before = false ->
  argument_after flag (before ++ rest) = argument_after flag rest.
Proof.
  induction before as [|a before IH]; [reflexivity|].
  cbn [existsb app argument_after]. intros H.
  apply orb_false_iff in H as [Ha Hb]. rewrite Ha. auto.
Qed.

(** The value that follows [-s] is the scale of the job, printed. *)
Lemma scale_argument_spec
    (executable : string) (cfg : configuration) (j : job) (base : string)
    (d : double) (command : list string) :
  format_literal_text (output_base_dir cfg) = Returns base ->
  float_of_int (time j) = Returns d ->
  command_line executable cfg j = Returns command ->
  scale_argument command = option_map str_float (scale_sedimentation_rate j).
Proof.
  intros Hb Ht. rewrite (command_line_returns executable cfg j base d Hb Ht).
  intros [= <-].
  destruct (float_of_int_finite _ _ Ht) as (m & e & ->).
  set (dg := distance_grid_path _ _ _).
  set (ag := age_grid_path _).
  set (p := output_file_basename_prefix j +:+ _).
  assert (Hd : String.eqb "-s" dg = false).
  { apply flag_differs_from_long. unfold dg, distance_grid_path.
    rewrite !length_append. change (String.length "/distances_") with 11%nat. lia. }
  assert (Ha : String.eqb "-s" ag = false).
  { apply flag_differs_from_long. unfold ag, age_grid_path.
    rewrite !length_append. change (String.length ".nc") with 3%nat. lia. }
  assert (Hp : String.eqb "-s" p = false).
  { apply flag_differs_from_long. unfold p.
    rewrite length_append. cbn [String.length].
    pose proof (decimal_places_length _ _ (format_f_decimal_places 1 (time j <? 0) m e)).
    lia. }
  unfold scale_argument, predictor_arguments.
  cbn [skipn app argument_after].
  rewrite !(flag_differs_from_long _ (str_float_length _)), Hd, Ha.
  cbn [String.eqb Ascii.eqb Bool.eqb].
  rewrite (argument_after_skip "-s" _ _ (no_flag_among_floats _)).
  destruct (scale_sedimentation_rate j); cbn [scale_arguments app argument_after option_map].
  - reflexivity.
  - rewrite Hp. reflexivity.
Qed.

(** C4. The command built for a job of the main program passes a scale
    factor to the predictor if and only if the job is a sedimentation-rate
    job: a rate job always carries [-s] followed by its scale, [str(10.0)],
    and a thickness job carries no [-s] at all. *)
Theorem scale_argument_iff_rate
    (executable : string) (cfg : configuration) (m : mode) (t : Z)
    (base : string) (d : double) :
  format_literal_text (output_base_dir cfg) = Returns base ->
  float_of_int t = Returns d ->
  exists command,
    command_line executable cfg (job_at cfg m t) = Returns command
    /\ (has_scale_argument command = true <-> m = Rate)
    /\ scale_argument command =
       match m with
       | Rate => Some (str_float 10.0%float)
       | Thickness => None
       end.
Proof.
  intros Hb Ht.
  pose proof (command_line_returns executable cfg (job_at cfg m t) base d Hb Ht) as Hc.
  eexists. split; [exact Hc|].
  rewrite (has_scale_argument_spec executable cfg (job_at cfg m t) base d _ Hb Ht Hc).
  rewrite (scale_argument_spec executable cfg (job_at cfg m t) base d _ Hb Ht Hc).
  destruct m; cbn [scale_sedimentation_rate job_at parameters mp_scale
                   rate_parameters thickness_parameters option_map];
    (split; [split; congruence | reflexivity]).
Qed.

Lemma scale_argument_iff_rate_witness :
  format_literal_text (output_base_dir user_input) = Returns "."
  /\ float_of_int 250 = Returns (Finite false (250 * 2 ^ 45) (-45))
  /\ exists command,
       command_line "python" user_input (job_at user_input Rate 250)
       = Returns command
       /\ (has_scale_argument command = true <-> Rate = Rate)
       /\ scale_argument command = Some "10.0".
Proof.
  split; [reflexivity|]. split; [reflexivity|].
  exact (scale_argument_iff_rate "python" user_input Rate 250 "."
           (Finite false (250 * 2 ^ 45) (-45)) eq_refl eq_refl).
Defined.

(** C5. The command builder returns the arguments in this order: the
    time-substituted distance grid, the time-substituted age grid, the
    output grid spacing, the weighting flag, the means of age and distance,
    their variances, their maxima, the polynomial coefficients one by one,
    the scale factor if there is one, and last the time-suffixed output
    prefix. *)
Theorem command_line_order
    (executable : string) (cfg : configuration) (j : job)
    (distance_grid age_grid prefix : string) :
  distance_grid_filenames_format cfg (time j) = Returns distance_grid ->
  age_grid_filenames_format (time j) = Returns age_grid ->
  output_filename_prefix j = Returns prefix ->
  command_line executable cfg j =
  Returns
    ([executable; predict_sedimentation_script j]
     ++ ["-d"; distance_grid]
     ++ ["-g"; age_grid]
     ++ ["-i"; str_float (grid_spacing cfg)]
     ++ ["-w"]
     ++ ["-m"; str_float (mean_age j); str_float (mean_distance j)]
     ++ ["-v"; str_float (variance_age j); str_float (variance_distance j)]
     ++ ["-x"; str_float (max_age j); str_float (max_distance j)]
     ++ "-f" :: map str_float (age_distance_polynomial_coefficients j)
     ++ match scale_sedimentation_rate j with
        | Some scale => ["-s"; str_float scale]
        | None => []
        end
     ++ ["--"; prefix]).
Proof.
  intros Hd Ha Hp. unfold command_line. rewrite Hd, Ha, Hp.
  cbn [bind app]. rewrite <- !app_assoc. reflexivity.
Qed.

Lemma command_line_order_witness :
  distance_grid_filenames_format user_input 7
  = Returns "./distances_0.1d/mean_distance_0.1d_7.0.nc"
  /\ age_grid_filenames_format 7 = Returns (age_grid_prefix +:+ "7.nc")
  /\ output_filename_prefix (job_at user_input Rate 7)
     = Returns "./sedimentation_output/predicted_rate/sed_rate_0.1d_7.0"
  /\ command_line "python" user_input (job_at user_input Rate 7) =
     Returns
       [ "python"; "predict_sedimentation_rate.py";
         "-d"; "./distances_0.1d/mean_distance_0.1d_7.0.nc";
         "-g"; age_grid_prefix +:+ "7.nc";
         "-i"; "0.1"; "-w";
         "-m"; "61.17716597"; "1835.10750592";
         "-v"; "1934.78513885"; "1207587.8548734";
         "-x"; "191.87276"; "3000.0";
         "-f"; "1.350082937086441"; "-0.26385415"; "-0.07516542";
         "0.39197707"; "-0.15475392"; "0.0"; "-0.13196083"; "0.02481208";
         "-0.0"; "-0.47570021";
         "-s"; "10.0";
         "--"; "./sedimentation_output/predicted_rate/sed_rate_0.1d_7.0" ].
Proof.
  split; [reflexivity|]. split; [reflexivity|]. split; [reflexivity|].
  exact (command_line_order "python" user_input (job_at user_input Rate 7)
           _ _ _ eq_refl eq_refl eq_refl).
Defined.

(** C10. Every built command line begins with the path of the running
    Python interpreter followed by the predictor script, and that is the
    command handed to [call_system_command]: the predictor runs under the
    interpreter of the driver. *)
Theorem command_line_interpreter
    (env : environment) (cfg : configuration) (j : job)
    (base : string) (d : double) (w : world) :
  format_literal_text (output_base_dir cfg) = Returns base ->
  float_of_int (time j) = Returns d ->
  exists arguments,
    command_line (sys_executable env) cfg j
    = Returns (sys_executable env :: predict_sedimentation_script j :: arguments)
    /\ generate_predicted_sedimentation_grid env cfg j w
       = (w,
          [CallSystemCommand
             (sys_executable env :: predict_sedimentation_script j :: arguments)],
          call_system_command env
            (sys_executable env :: predict_sedimentation_script j :: arguments)).
Proof.
  intros Hb Ht.
  pose proof (command_line_returns (sys_executable env) cfg j base d Hb Ht) as Hc.
  cbn [app] in Hc. eexists. split; [exact Hc|].
  unfold generate_predicted_sedimentation_grid, seq_exec, lift, emit.
  rewrite Hc. destruct (call_system_command env _); reflexivity.
Qed.

Lemma command_line_interpreter_witness :
  format_literal_text (output_base_dir user_input) = Returns "."
  /\ float_of_int 0 = Returns (Finite false 0 0)
  /\ exists arguments,
       command_line "/usr/bin/python3" user_input (job_at user_input Rate 0)
       = Returns ("/usr/bin/python3" :: "predict_sedimentation_rate.py" :: arguments)
       /\ generate_predicted_sedimentation_grid calm user_input
            (job_at user_input Rate 0) fresh
          = (fresh,
             [CallSystemCommand
                ("/usr/bin/python3" :: "predict_sedimentation_rate.py" :: arguments)],
             Returns tt).
Proof.
  split; [reflexivity|]. split; [reflexivity|].
  exact (command_line_interpreter calm user_input (job_at user_input Rate 0)
           "." (Finite false 0 0) fresh eq_refl eq_refl).
Defined.

(** C6. In the built command the age grid path carries the time with no
    decimal place, the distance grid path carries it with exactly one (and
    its directory carries the spacing formatted to one decimal place), and
    the output prefix ends with the time with exactly one decimal place. *)
Theorem grid_paths_decimal_places
    (executable : string) (cfg : configuration) (j : job)
    (base : string) (d : double) :
  format_literal_text (output_base_dir cfg) = Returns base ->
  float_of_int (time j) = Returns d ->
  exists command,
    command_line executable cfg j = Returns command
    /\ nth_error command 3 =
       Some (base +:+ "/distances_" +:+
             format_f_float 1 (distance_grid_spacing cfg) +:+
             "d/mean_distance_" +:+
             format_f_float 1 (distance_grid_spacing cfg) +:+
             "d_" +:+ format_f 1 d +:+ ".nc")
    /\ nth_error command 5 = Some (age_grid_prefix +:+ format_f 0 d +:+ ".nc")
    /\ List.last command "" =
       output_file_basename_prefix j +:+ "_" +:+ format_f 1 d
    /\ decimal_places 0 (format_f 0 d)
    /\ decimal_places 1 (format_f 1 d)
    /\ (forall neg m e,
          float_of_literal (distance_grid_spacing cfg) = Finite neg m e ->
          decimal_places 1 (format_f_float 1 (distance_grid_spacing cfg))).
Proof.
  intros Hb Ht.
  eexists. split; [exact (command_line_returns executable cfg j base d Hb Ht)|].
  destruct (float_of_int_finite _ _ Ht) as (m & e & ->).
  repeat split; try apply format_f_decimal_places.
  - change ["--"; ?p] with (["--"] ++ [p]).
    rewrite !app_assoc. apply last_last.
  - intros neg m' e' E. unfold format_f_float. rewrite E.
    apply format_f_decimal_places.
Qed.

Lemma grid_paths_decimal_places_witness :
  format_literal_text (output_base_dir user_input) = Returns "."
  /\ float_of_int 100 = Returns (Finite false (100 * 2 ^ 46) (-46))
  /\ exists command,
       command_line "python" user_input (job_at user_input Thickness 100)
       = Returns command
       /\ nth_error command 3 = Some "./distances_0.1d/mean_distance_0.1d_100.0.nc"
       /\ nth_error command 5 = Some (age_grid_prefix +:+ "100.nc")
       /\ List.last command "" =
          "./sedimentation_output/predicted_thickness/sed_thick_0.1d_100.0"
       /\ decimal_places 0 "100"
       /\ decimal_places 1 "100.0"
       /\ (forall neg m e,
             float_of_literal 0.1%float = Finite neg m e ->
             decimal_places 1 "0.1").
Proof.
  split; [reflexivity|]. split; [reflexivity|].
  exact (grid_paths_decimal_places "python" user_input
           (job_at user_input Thickness 100) "."
           (Finite false (100 * 2 ^ 46) (-46)) eq_refl eq_refl).
Defined.

(** ** The time range and the jobs *)

(** For a positive step, index [k] is below the length of the range
    exactly when the [k]-th term is below the stop value. *)
Lemma range_length_spec (start stop step : Z) (k : nat) :
  0 < step ->
  Z.of_nat k < range_length start stop step <-> start + Z.of_nat k * step < stop.
Proof.
  intros Hstep. unfold range_length.
  destruct (Z.ltb_spec 0 step) as [_|]; [|lia].
  destruct (Z.ltb_spec start stop) as [Hlt|Hge]; [|nia].
  pose proof (Z.div_mod (stop - start - 1) step ltac:(lia)) as Hdm.
  pose proof (Z.mod_pos_bound (stop - start - 1) step Hstep) as Hmod.
  split; intros H; nia.
Qed.

Lemma range_returns (start stop step : Z) :
  step <> 0 ->
  range start stop step =
  Returns (map (fun i => start + Z.of_nat i * step)
               (seq 0 (Z.to_nat (range_length start stop step)))).
Proof.
  intros H. unfold range. destruct (Z.eqb_spec step 0); [contradiction | reflexivity].
Qed.

Lemma range_step_nonzero (start stop step : Z) (ts : list Z) :
  range start stop step = Returns ts -> step <> 0.
Proof.
  unfold range. destruct (Z.eqb_spec step 0); [discriminate | auto].
Qed.

Lemma range_NoDup (start stop step : Z) (ts : list Z) :
  range start stop step = Returns ts -> List.NoDup ts.
Proof.
  intros H. pose proof (range_step_nonzero _ _ _ _ H) as Hstep.
  rewrite range_returns in H by assumption. injection H as <-.
  apply Finite.Injective_map_NoDup; [|apply seq_NoDup].
  intros i i' E. nia.
Qed.

Lemma jobs_times (cfg : configuration) (m : mode) (ts : list Z) :
  map time (jobs cfg m ts) = ts.
Proof.
  unfold jobs. rewrite map_map. cbn [time job_at]. apply map_id.
Qed.

Lemma jobs_length (cfg : configuration) (m : mode) (ts : list Z) :
  length (jobs cfg m ts) = length ts.
Proof.
  unfold jobs. apply length_map.
Qed.

Lemma in_jobs (cfg : configuration) (m : mode) (ts : list Z) (j : job) :
  In j (jobs cfg m ts) <-> exists t, In t ts /\ j = job_at cfg m t.
Proof.
  unfold jobs. rewrite in_map_iff. split; intros (t & H1 & H2); eauto.
Qed.

(** C2. With a positive step, the times of the jobs of one mode are the
    terms [min_time + k * time_step] of the arithmetic sequence, in order,
    and a term has a job exactly when it is at most [max_time]: there are
    as many jobs as there are such terms. *)
Theorem jobs_follow_arithmetic_sequence (cfg : configuration) (m : mode) :
  0 < time_step cfg ->
  exists ts,
    times cfg = Returns ts
    /\ map time (jobs cfg m ts) = ts
    /\ ts = map (fun k => min_time cfg + Z.of_nat k * time_step cfg)
                (seq 0 (length (jobs cfg m ts)))
    /\ forall k : nat,
         (k < length (jobs cfg m ts))%nat
         <-> min_time cfg + Z.of_nat k * time_step cfg <= max_time cfg.
Proof.
  intros Hstep. unfold times.
  rewrite range_returns by lia.
  eexists. split; [reflexivity|].
  rewrite jobs_times, jobs_length, length_map, length_seq.
  repeat split; try reflexivity.
  - intros H.
    assert (Hk : Z.of_nat k < range_length (min_time cfg) (max_time cfg + 1) (time_step cfg)) by lia.
    apply range_length_spec in Hk; lia.
  - intros H.
    assert (Hk : Z.of_nat k < range_length (min_time cfg) (max_time cfg + 1) (time_step cfg))
      by (apply range_length_spec; lia).
    lia.
Qed.

Lemma jobs_follow_arithmetic_sequence_witness :
  0 < time_step user_input
  /\ exists ts,
       times user_input = Returns ts
       /\ map time (jobs user_input Rate ts) = ts
       /\ ts = map (fun k => min_time user_input + Z.of_nat k * time_step user_input)
                   (seq 0 (length (jobs user_input Rate ts)))
       /\ forall k : nat,
            (k < length (jobs user_input Rate ts))%nat
            <-> min_time user_input + Z.of_nat k * time_step user_input
                <= max_time user_input.
Proof.
  split; [reflexivity|].
  exact (jobs_follow_arithmetic_sequence user_input Rate eq_refl).
Defined.

(** C3. The main program makes exactly one job per time of the range, and
    the jobs of one mode carry the same script, scale, means, variances,
    maxima, coefficients and basename prefix: a job is determined by its
    mode and its time, so two jobs of a mode differ only in the time and in
    the paths formatted from it. *)
Theorem one_job_per_time (cfg : configuration) (m : mode) (ts : list Z) :
  times cfg = Returns ts ->
  map time (jobs cfg m ts) = ts
  /\ (forall t, In t ts -> count_occ Z.eq_dec (map time (jobs cfg m ts)) t = 1%nat)
  /\ (forall j, In j (jobs cfg m ts) ->
        predict_sedimentation_script j = mp_script (parameters m)
        /\ scale_sedimentation_rate j = mp_scale (parameters m)
        /\ mean_age j = mp_mean_age (parameters m)
        /\ mean_distance j = mp_mean_distance (parameters m)
        /\ variance_age j = mp_variance_age (parameters m)
        /\ variance_distance j = mp_variance_distance (parameters m)
        /\ max_age j = mp_max_age (parameters m)
        /\ max_distance j = mp_max_distance (parameters m)
        /\ age_distance_polynomial_coefficients j = mp_coefficients (parameters m)
        /\ output_file_basename_prefix j = basename_prefix cfg m)
  /\ (forall j j', In j (jobs cfg m ts) -> In j' (jobs cfg m ts) ->
        time j = time j' -> j = j').
Proof.
  intros Hts. split; [apply jobs_times|]. split; [|split].
  - intros t Ht. rewrite jobs_times.
    apply NoDup_count_occ'; [exact (range_NoDup _ _ _ _ Hts) | exact Ht].
  - intros j Hj. apply in_jobs in Hj as (t & _ & ->). cbn. repeat split.
  - intros j j' Hj Hj' E.
    apply in_jobs in Hj as (t & _ & ->). apply in_jobs in Hj' as (t' & _ & ->).
    cbn in E. now subst.
Qed.

Lemma one_job_per_time_witness :
  times user_input = Returns (map Z.of_nat (seq 0 251))
  /\ map time (jobs user_input Thickness (map Z.of_nat (seq 0 251)))
     = map Z.of_nat (seq 0 251).
Proof.
  split; [reflexivity|].
  exact (proj1 (one_job_per_time user_input Thickness (map Z.of_nat (seq 0 251))
                  eq_refl)).
Defined.

(** ** The end-to-end scenario *)


(** ** The worker count *)

Lemma resolve_workers_true (env : environment) (n : Z) :
  cpu_count env = Returns n ->
  resolve_workers env (CpusBool true) = Returns (PoolOf n).
Proof.
  intros H. unfold resolve_workers, num_cpus. cbn. now rewrite H.
Qed.

Lemma resolve_workers_true_unknown (env : environment) :
  cpu_count env = Raises NotImplementedError ->
  resolve_workers env (CpusBool true) = Returns (PoolOf 1).
Proof.
  intros H. unfold resolve_workers, num_cpus. cbn. now rewrite H.
Qed.

Lemma resolve_workers_false (env : environment) :
  resolve_workers env (CpusBool false) = Returns Sequential
  /\ effective_workers Sequential = 1.
Proof.
  split; reflexivity.
Qed.

Lemma resolve_workers_positive (env : environment) (n : Z) :
  0 < n -> resolve_workers env (CpusInt n) = Returns (PoolOf n).
Proof.
  intros H. unfold resolve_workers, num_cpus, truthy.
  destruct (Z.eqb_spec n 0); [lia|].
  destruct (Z.ltb_spec 0 n); [reflexivity | lia].
Qed.

Lemma resolve_workers_negative (env : environment) (n : Z) :
  n < 0 -> exists msg, resolve_workers env (CpusInt n) = Raises (TypeError msg).
Proof.
  intros H. unfold resolve_workers, num_cpus, truthy.
  destruct (Z.eqb_spec n 0); [lia|].
  destruct (Z.ltb_spec 0 n); [lia|]. cbn. eauto.
Qed.

(** A negative integer stops the block of a mode with a [TypeError] before
    any job is handed out. *)
Lemma dispatch_rejects_negative
    (env : environment) (cfg : configuration) (m : mode) (ts : list Z)
    (w : world) (n : Z) :
  use_all_cpus cfg = CpusInt n -> n < 0 ->
  exists msg,
    dispatch env cfg m ts w =
    (w, [Print (mp_banner (parameters m))], Raises (TypeError msg)).
Proof.
  intros Hu Hn. destruct (resolve_workers_negative env n Hn) as [msg Hr].
  exists msg. unfold dispatch, seq_exec, emit, lift. rewrite Hu, Hr. reflexivity.
Qed.

(** ** Directories *)

Lemma seq_exec_skip {A B} (c : exec A) (k : A -> exec B) (w : world) (a : A) :
  c w = (w, [], Returns a) -> seq_exec c k w = k a w.
Proof.
  intros H. unfold seq_exec. rewrite H. now destruct (k a w) as [[w2 tr2] o].
Qed.

Lemma seq_exec_returns {A B} (c : exec A) (k : A -> exec B)
    (w w' : world) (trace : list event) (b : B) :
  seq_exec c k w = (w', trace, Returns b) ->
  exists w1 tr1 a tr2,
    c w = (w1, tr1, Returns a) /\ k a w1 = (w', tr2, Returns b)
    /\ trace = tr1 ++ tr2.
Proof.
  unfold seq_exec.
  destruct (c w) as [[w1 tr1] [a|e]]; [|discriminate].
  destruct (k a w1) as [[w2 tr2] o] eqn:E.
  intros [= -> <- ->]. eauto 8.
Qed.

(** An existing directory is left as it is. *)
Lemma ensure_directory_present (env : environment) (d : string) (w : world) :
  d ∈ fs w -> ensure_directory env d w = (w, [], Returns tt).
Proof.
  intros H. unfold ensure_directory, seq_exec, os_path_exists.
  now rewrite bool_decide_eq_true_2.
Qed.

(** A missing directory whose parent exists is created. *)
Lemma ensure_directory_absent (env : environment) (d : string) (w : world) :
  d ∉ fs w ->
  mkdir_refusal env d = None ->
  dirname d = "" \/ dirname d ∈ fs w ->
  ensure_directory env d w =
  (World ({[ d ]} ∪ fs w) (pool w),
   [Print (d +:+ " does not exist, creating now... "); Mkdir d],
   Returns tt).
Proof.
  intros Hd Hr Hp. unfold ensure_directory, seq_exec, os_path_exists, os_mkdir, emit.
  rewrite !bool_decide_eq_false_2 by assumption. rewrite Hr.
  replace (String.eqb (dirname d) "" || bool_decide (dirname d ∈ fs w)) with true;
    [reflexivity|].
  symmetry. apply orb_true_iff.
  destruct Hp as [E|E]; [left; now apply String.eqb_eq | right; now apply bool_decide_eq_true_2].
Qed.

(** After a check that did not raise, the directory exists and no path has
    gone. *)
Lemma ensure_directory_returns
    (env : environment) (d : string) (w w' : world) (trace : list event) :
  ensure_directory env d w = (w', trace, Returns tt) ->
  d ∈ fs w' /\ fs w ⊆ fs w'.
Proof.
  destruct (decide (d ∈ fs w)) as [Hin|Hout].
  - rewrite ensure_directory_present by assumption.
    intros [= <- _]. split; [exact Hin | set_solver].
  - unfold ensure_directory, seq_exec, os_path_exists, os_mkdir, emit, ret.
    rewrite !bool_decide_eq_false_2 by assumption.
    destruct (mkdir_refusal env d);
      [|destruct (String.eqb (dirname d) "" || bool_decide (dirname d ∈ fs w))];
      intros H; inversion H; subst; cbn; set_solver.
Qed.

Section Frame.

Context {A B : Type}.

Lemma keeps_ret (a : A) : keeps_directories (ret a).
Proof. intros w w' tr o [= <- <- _]. auto. Qed.

Lemma keeps_lift (o : outcome A) : keeps_directories (lift o).
Proof. intros w w' tr o' [= <- <- _]. auto. Qed.

Lemma keeps_seq (c : exec A) (k : A -> exec B) :
  keeps_directories c -> (forall a, keeps_directories (k a)) ->
  keeps_directories (seq_exec c k).
Proof.
  intros Hc Hk w w' tr o. unfold seq_exec.
  destruct (c w) as [[w1 tr1] [a|e]] eqn:E1.
  - destruct (k a w1) as [[w2 tr2] o2] eqn:E2.
    intros [= <- <- _].
    destruct (Hc _ _ _ _ E1) as [F1 M1], (Hk _ _ _ _ _ E2) as [F2 M2].
    split; [congruence|]. now rewrite filter_app, M1, M2.
  - intros [= <- <- _]. exact (Hc _ _ _ _ E1).
Qed.

End Frame.

Lemma keeps_emit (ev : event) : is_mkdir ev = false -> keeps_directories (emit ev).
Proof.
  intros H w w' tr o [= <- <- _]. cbn. now rewrite H.
Qed.

Lemma keeps_except (body : exec unit) :
  keeps_directories body -> keeps_directories (except_keyboard_interrupt body).
Proof.
  intros Hb w w' tr o. unfold except_keyboard_interrupt.
  destruct (body w) as [[w1 tr1] [a|e]] eqn:E1.
  - intros [= <- <- _]. exact (Hb _ _ _ _ E1).
  - destruct e; intros [= <- <- _]; exact (Hb _ _ _ _ E1).
Qed.

Lemma keeps_finally (body cleanup : exec unit) :
  keeps_directories body -> keeps_directories cleanup ->
  keeps_directories (finally body cleanup).
Proof.
  intros Hb Hc w w' tr o. unfold finally.
  destruct (body w) as [[w1 tr1] o1] eqn:E1.
  destruct (cleanup w1) as [[w2 tr2] [a|e]] eqn:E2;
    intros [= <- <- _];
    destruct (Hb _ _ _ _ E1) as [F1 M1], (Hc _ _ _ _ E2) as [F2 M2];
    (split; [congruence | now rewrite filter_app, M1, M2]).
Qed.

Lemma keeps_for_each {A} (xs : list A) (body : A -> exec unit) :
  (forall x, keeps_directories (body x)) -> keeps_directories (for_each xs body).
Proof.
  intros Hb. induction xs as [|x xs IH]; cbn [for_each].
  - apply keeps_ret.
  - apply keeps_seq; auto.
Qed.

Lemma keeps_generate (env : environment) (cfg : configuration) (j : job) :
  keeps_directories (generate_predicted_sedimentation_grid env cfg j).
Proof.
  unfold generate_predicted_sedimentation_grid.
  apply keeps_seq; [apply keeps_lift|]. intros command.
  apply keeps_seq; [now apply keeps_emit|]. intros _. apply keeps_lift.
Qed.

Lemma keeps_pool_dispatch
    (env : environment) (cfg : configuration) (m : mode) (n : Z) (ts : list Z) :
  keeps_directories (pool_dispatch env cfg m n ts).
Proof.
  unfold pool_dispatch, new_pool.
  apply keeps_finally; [apply keeps_except|].
  - repeat (apply keeps_seq; [|intros _]);
      try apply keeps_lift; try (now apply keeps_emit).
    intros w w' tr o [= <- <- _]. auto.
  - apply keeps_seq; [|intros _].
    + intros w w' tr o. unfold pool_close. destruct (pool w); intros [= <- <- _]; auto.
    + intros w w' tr o. unfold pool_join. destruct (pool w); intros [= <- <- _]; auto.
Qed.

Lemma keeps_dispatch
    (env : environment) (cfg : configuration) (m : mode) (ts : list Z) :
  keeps_directories (dispatch env cfg m ts).
Proof.
  unfold dispatch.
  apply keeps_seq; [now apply keeps_emit|]. intros _.
  apply keeps_seq; [apply keeps_lift|]. intros [n|].
  - apply keeps_pool_dispatch.
  - apply keeps_for_each. intros j. apply keeps_generate.
Qed.


Lemma run_mode_on_existing
    (env : environment) (cfg : configuration) (m : mode) (ts : list Z) (w : world) :
  output_dir cfg m ∈ fs w -> run_mode env cfg m ts w = dispatch env cfg m ts w.
Proof.
  intros H. unfold run_mode.
  apply (seq_exec_skip _ (fun _ => dispatch env cfg m ts) w tt).
  apply ensure_directory_present, H.
Qed.

Lemma main_on_populated (env : environment) (cfg : configuration) (w : world) :
  populated cfg w -> main env cfg w = run_jobs env cfg w.
Proof.
  intros [Hbase Hmodes]. unfold main.
  rewrite (seq_exec_skip _ _ w tt) by (now apply ensure_directory_present).
  unfold run_jobs, seq_exec at 1 3, lift.
  destruct (times cfg) as [ts|e]; [|reflexivity].
  assert (Hrate :
    (if enabled cfg Rate then run_mode env cfg Rate ts else ret tt) w =
    (if enabled cfg Rate then dispatch env cfg Rate ts else ret tt) w).
  { destruct (enabled cfg Rate) eqn:E; [|reflexivity].
    apply run_mode_on_existing, Hmodes, E. }
  unfold seq_exec. rewrite Hrate.
  destruct ((if enabled cfg Rate then dispatch env cfg Rate ts else ret tt) w)
    as [[w1 tr1] [[]|e]] eqn:E1; [|reflexivity].
  assert (Hfs : fs w1 = fs w).
  { destruct (enabled cfg Rate).
    - exact (proj1 (keeps_dispatch _ _ _ _ _ _ _ _ E1)).
    - exact (proj1 (keeps_ret _ _ _ _ _ E1)). }
  destruct (enabled cfg Thickness) eqn:E2; [|reflexivity].
  rewrite run_mode_on_existing; [reflexivity|].
  rewrite Hfs. apply Hmodes, E2.
Qed.

(** A run that ends without an exception leaves every output directory it
    uses in place. *)
Lemma main_success_populates
    (env : environment) (cfg : configuration) (w w' : world) (trace : list event) :
  main env cfg w = (w', trace, Returns tt) -> populated cfg w'.
Proof.
  unfold main. intros H.
  apply seq_exec_returns in H as (w0 & tr0 & [] & tr & H0 & H & _).
  apply ensure_directory_returns in H0 as [Hbase _].
  apply seq_exec_returns in H as (w0' & tr0' & ts & tr' & Hts & H & _).
  unfold lift in Hts. injection Hts as <- _ _.
  apply seq_exec_returns in H as (w1 & tr1 & [] & tr2 & H1 & H2 & _).
  assert (S1 : fs w0 ⊆ fs w1 /\ (enabled cfg Rate = true -> output_dir cfg Rate ∈ fs w1)).
  { destruct (enabled cfg Rate).
    - unfold run_mode in H1.
      apply seq_exec_returns in H1 as (wa & tra & [] & trb & Ha & Hb & _).
      apply ensure_directory_returns in Ha as [Hin Hsub].
      apply keeps_dispatch in Hb as [Hfs _]. rewrite Hfs. auto.
    - injection H1 as <- _. split; [set_solver | discriminate]. }
  assert (S2 : fs w1 ⊆ fs w' /\ (enabled cfg Thickness = true -> output_dir cfg Thickness ∈ fs w')).
  { destruct (enabled cfg Thickness).
    - unfold run_mode in H2.
      apply seq_exec_returns in H2 as (wa & tra & [] & trb & Ha & Hb & _).
      apply ensure_directory_returns in Ha as [Hin Hsub].
      apply keeps_dispatch in Hb as [Hfs _]. rewrite Hfs. auto.
    - injection H2 as <- _. split; [set_solver | discriminate]. }
  destruct S1 as [Sub1 R1], S2 as [Sub2 R2].
  split; [set_solver|].
  intros [] E; [specialize (R1 E); set_solver | exact (R2 E)].
Qed.

Lemma complete_is_populated : populated user_input complete.
Proof.
  split; [|intros m _; destruct m];
    (match goal with |- ?P => apply (bool_decide_unpack P) end);
    vm_compute; exact I.
Defined.

(** ** The pool *)

(** The wrapper run in the workers swallows an interrupt. *)
Lemma pool_function_swallows_interrupt
    (env : environment) (cfg : configuration) (j : job) (w : world) :
  snd (generate_predicted_sedimentation_grid_parallel_pool_function env cfg j w)
  <> Raises KeyboardInterrupt.
Proof.
  unfold generate_predicted_sedimentation_grid_parallel_pool_function,
    except_keyboard_interrupt.
  destruct (generate_predicted_sedimentation_grid env cfg j w) as [[w1 tr1] [a|e]];
    [|destruct e]; cbn; discriminate.
Qed.

(** When the constructor of the pool itself raises, the name [pool] is not
    bound by this block: in a first block the cleanup finds no pool and
    raises [NameError]. *)
Lemma pool_dispatch_without_pool
    (env : environment) (cfg : configuration) (m : mode) (n : Z)
    (ts : list Z) (w : world) (e : exn) :
  pool_new env m = Raises e -> pool w = None ->
  pool_dispatch env cfg m n ts w = (w, [PoolNew n], Raises NameError).
Proof.
  intros Hnew Hpool.
  unfold pool_dispatch, finally, except_keyboard_interrupt, new_pool,
    seq_exec, emit, lift, pool_close.
  rewrite Hnew. destruct e; cbn; rewrite Hpool; reflexivity.
Qed.

(** * Further properties *)

(** ** The time range beyond a positive step *)

Lemma range_length_spec_negative (start stop step : Z) (k : nat) :
  step < 0 ->
  Z.of_nat k < range_length start stop step <-> stop < start + Z.of_nat k * step.
Proof.
  intros Hstep. unfold range_length.
  destruct (Z.ltb_spec 0 step) as [|_]; [lia|].
  destruct (Z.ltb_spec stop start) as [Hlt|Hge]; [|nia].
  pose proof (Z.div_mod (start - stop - 1) (- step) ltac:(lia)) as Hdm.
  pose proof (Z.mod_pos_bound (start - stop - 1) (- step) ltac:(lia)) as Hmod.
  split; intros H; nia.
Qed.

(** With a negative step the times run downwards from [min_time], and a
    term is kept exactly while it is above [max_time + 1]: the stop value
    stays [max_time + 1], so neither [max_time] nor [max_time + 1] is ever
    reached from above. *)
Theorem times_with_negative_step (cfg : configuration) :
  time_step cfg < 0 ->
  exists ts,
    times cfg = Returns ts
    /\ ts = map (fun k => min_time cfg + Z.of_nat k * time_step cfg)
                (seq 0 (length ts))
    /\ (forall k : nat,
          (k < length ts)%nat
          <-> max_time cfg + 1 < min_time cfg + Z.of_nat k * time_step cfg)
    /\ ~ In (max_time cfg) ts /\ ~ In (max_time cfg + 1) ts.
Proof.
  intros Hstep. unfold times. rewrite range_returns by lia.
  eexists. split; [reflexivity|].
  rewrite length_map, length_seq.
  assert (Hk : forall k : nat,
             (k < Z.to_nat (range_length (min_time cfg) (max_time cfg + 1) (time_step cfg)))%nat
             <-> max_time cfg + 1 < min_time cfg + Z.of_nat k * time_step cfg).
  { intros k. rewrite <- range_length_spec_negative by assumption. lia. }
  split; [reflexivity|]. split; [exact Hk|].
  split; intros Hin; apply in_map_iff in Hin as (k & E & Hin);
    apply in_seq in Hin; destruct Hin as [_ Hin]; cbn in Hin;
    apply Hk in Hin; lia.
Qed.

Lemma times_with_negative_step_witness :
  time_step descending < 0
  /\ exists ts,
       times descending = Returns ts
       /\ ts = map (fun k => min_time descending + Z.of_nat k * time_step descending)
                   (seq 0 (length ts))
       /\ (forall k : nat,
             (k < length ts)%nat
             <-> max_time descending + 1
                 < min_time descending + Z.of_nat k * time_step descending)
       /\ ~ In (max_time descending) ts /\ ~ In (max_time descending + 1) ts.
Proof.
  split; [reflexivity|].
  exact (times_with_negative_step descending eq_refl).
Defined.

(** No job at all is made exactly when the step points away from
    [max_time]: a positive step with [max_time < min_time], or a negative
    step with [min_time <= max_time + 1]. *)
Theorem times_empty_iff (cfg : configuration) :
  times cfg = Returns []
  <-> (0 < time_step cfg /\ max_time cfg < min_time cfg)
      \/ (time_step cfg < 0 /\ min_time cfg <= max_time cfg + 1).
Proof.
  unfold times, range.
  destruct (Z.eqb_spec (time_step cfg) 0) as [E|E];
    [split; [discriminate | lia]|].
  assert (Hlen : forall n, map (fun i => min_time cfg + Z.of_nat i * time_step cfg)
                               (seq 0 n) = [] <-> n = 0%nat).
  { intros [|n]; cbn; split; congruence. }
  split.
  - intros [= H]. apply Hlen in H.
    destruct (Z.lt_ge_cases 0 (time_step cfg)) as [Hpos|Hneg].
    + left. split; [exact Hpos|].
      pose proof (range_length_spec (min_time cfg) (max_time cfg + 1) (time_step cfg) 0 Hpos).
      lia.
    + right. split; [lia|].
      pose proof (range_length_spec_negative (min_time cfg) (max_time cfg + 1)
                    (time_step cfg) 0 ltac:(lia)).
      lia.
  - intros H. f_equal. apply Hlen.
    destruct H as [[Hpos Hlt]|[Hneg Hle]].
    + pose proof (range_length_spec (min_time cfg) (max_time cfg + 1) (time_step cfg) 0 Hpos).
      lia.
    + pose proof (range_length_spec_negative (min_time cfg) (max_time cfg + 1)
                    (time_step cfg) 0 Hneg).
      lia.
Qed.

(** ** Settings that stop the script *)

(** A zero [time_step] stops the script with a [ValueError] right after
    the check of the base output directory: no mode directory is made, no
    pool is started and no job is run, whatever the other settings. *)
Theorem zero_step_stops_before_modes
    (env : environment) (cfg : configuration) (w : world) :
  time_step cfg = 0 ->
  main env cfg w =
  let '(w1, trace, checked) := ensure_directory env (sediment_output_dir cfg) w in
  (w1, trace,
   match checked with
   | Returns _ => Raises ValueError
   | Raises e => Raises e
   end).
Proof.
  intros Hstep. unfold main, seq_exec at 1.
  destruct (ensure_directory env (sediment_output_dir cfg) w) as [[w1 tr1] [[]|e]];
    [|reflexivity].
  unfold seq_exec, lift, times, range. rewrite Hstep. cbn.
  now rewrite app_nil_r.
Qed.

Lemma zero_step_stops_before_modes_witness :
  time_step stalled = 0
  /\ main calm stalled fresh =
     let '(w1, trace, checked) :=
       ensure_directory calm (sediment_output_dir stalled) fresh in
     (w1, trace,
      match checked with
      | Returns _ => Raises ValueError
      | Raises e => Raises e
      end).
Proof.
  split; [reflexivity|].
  exact (zero_step_stops_before_modes calm stalled fresh eq_refl).
Defined.

(** On an output tree that is in place and with a [time_step] other than
    zero, a negative [use_all_cpus] ends the script with the [TypeError]
    exactly when one of the two modes is switched on, and in either case no
    job is handed out; with both modes off the setting is never looked
    at. *)
Theorem negative_cpus_rejected_iff_mode_enabled
    (env : environment) (cfg : configuration) (w : world) (n : Z) :
  populated cfg w ->
  time_step cfg <> 0 ->
  use_all_cpus cfg = CpusInt n -> n < 0 ->
  exists trace msg,
    main env cfg w =
    (w, trace,
     if enabled cfg Rate || enabled cfg Thickness
     then Raises (TypeError msg) else Returns tt)
    /\ filter is_dispatch trace = [].
Proof.
  intros Hp Hstep Hu Hn. rewrite (main_on_populated env cfg w Hp).
  unfold run_jobs, seq_exec at 1, lift, times.
  rewrite range_returns by assumption.
  set (ts := map _ _).
  destruct (dispatch_rejects_negative env cfg Rate ts w n Hu Hn) as [msgR HR].
  destruct (dispatch_rejects_negative env cfg Thickness ts w n Hu Hn) as [msgT HT].
  unfold seq_exec.
  destruct (enabled cfg Rate).
  - rewrite HR. eexists _, msgR. split; reflexivity.
  - cbn [ret]. destruct (enabled cfg Thickness).
    + rewrite HT. eexists _, msgT. split; reflexivity.
    + eexists _, "". split; reflexivity.
Qed.

Lemma negative_cpus_is_populated : populated negative_cpus complete.
Proof.
  split; [|intros m _; destruct m];
    (match goal with |- ?P => apply (bool_decide_unpack P) end);
    vm_compute; exact I.
Defined.

Lemma negative_cpus_rejected_iff_mode_enabled_witness :
  populated negative_cpus complete
  /\ time_step negative_cpus <> 0
  /\ use_all_cpus negative_cpus = CpusInt (-2) /\ -2 < 0
  /\ exists trace msg,
       main calm negative_cpus complete =
       (complete, trace,
        if enabled negative_cpus Rate || enabled negative_cpus Thickness
        then Raises (TypeError msg) else Returns tt)
       /\ filter is_dispatch trace = [].
Proof.
  split; [exact negative_cpus_is_populated|]. split; [discriminate|].
  split; [reflexivity|]. split; [reflexivity|].
  exact (negative_cpus_rejected_iff_mode_enabled calm negative_cpus complete
           (-2) negative_cpus_is_populated ltac:(discriminate) eq_refl eq_refl).
Defined.

(** ** Formatting the time *)

Lemma append_assoc (a b c : string) : (a +:+ b) +:+ c = a +:+ (b +:+ c).
Proof.
  induction a as [|x a IH]; cbn; [reflexivity | now rewrite IH].
Qed.

Lemma append_empty_r (a : string) : a +:+ "" = a.
Proof.
  induction a as [|x a IH]; cbn; [reflexivity | now rewrite IH].
Qed.

Lemma round_half_even_exact (a q : Z) : 0 < q -> round_half_even (a * q) q = a.
Proof.
  intros Hq. unfold round_half_even.
  rewrite Z.div_mul, Z.mod_mul by lia.
  destruct (Z.ltb_spec (2 * 0) q); [reflexivity | lia].
Qed.

Lemma round_half_even_lower (p q : Z) : p / q <= round_half_even p q.
Proof.
  unfold round_half_even.
  destruct (2 * (p mod q) <? q); [lia|].
  destruct (q <? 2 * (p mod q)); [lia|].
  destruct (Z.even (p / q)); lia.
Qed.

Lemma floor_log2_ratio_one (p : Z) : 0 < p -> floor_log2_ratio p 1 = Z.log2 p.
Proof.
  intros Hp. unfold floor_log2_ratio. change (Z.log2 1) with 0.
  rewrite Z.sub_0_r.
  pose proof (Z.log2_nonneg p) as Hl.
  destruct (Z.leb_spec 0 (Z.log2 p)); [|lia].
  destruct (Z.log2_spec p Hp) as [Hlow _].
  destruct (Z.ltb_spec p (1 * 2 ^ Z.log2 p)); [lia | reflexivity].
Qed.

(** An int of fewer than 54 bits is a float as it is: the mantissa is the
    int shifted into 53 bits. *)
Lemma float_of_int_exact (t : Z) :
  Z.abs t < 2 ^ 53 ->
  exists k, 0 <= k
    /\ float_of_int t = Returns (Finite (t <? 0) (Z.abs t * 2 ^ k) (- k)).
Proof.
  intros Ht. unfold float_of_int, nearest_double.
  destruct (Z.eqb_spec (Z.abs t) 0) as [E|E].
  - exists 0. rewrite E. split; [lia | reflexivity].
  - assert (Hp : 0 < Z.abs t) by lia.
    rewrite floor_log2_ratio_one by assumption.
    assert (Hl : 0 <= Z.log2 (Z.abs t) < 53).
    { split; [apply Z.log2_nonneg | apply Z.log2_lt_pow2; lia]. }
    exists (52 - Z.log2 (Z.abs t)). split; [lia|].
    replace (Z.max (Z.log2 (Z.abs t) - 52) (-1074)) with (- (52 - Z.log2 (Z.abs t))) by lia.
    set (k := 52 - Z.log2 (Z.abs t)) in *.
    assert (Hk : 0 <= k) by lia.
    destruct (Z.leb_spec 0 (- k)) as [H0|H0].
    + assert (k = 0) by lia. subst k. rewrite H. change (- 0) with 0.
      change (2 ^ 0) with 1. rewrite !Z.mul_1_r.
      replace (round_half_even (Z.abs t) 1) with (Z.abs t)
        by (symmetry; rewrite <- (Z.mul_1_r (Z.abs t)) at 1;
            apply round_half_even_exact; lia).
      assert (2 ^ 53 < 2 ^ 1024) by (apply Z.pow_lt_mono_r; lia).
      destruct (Z.ltb_spec (Z.abs t) (2 ^ 1024)); [reflexivity | lia].
    + rewrite Z.opp_involutive.
      rewrite <- (Z.mul_1_r (Z.abs t * 2 ^ k)) at 1.
      rewrite round_half_even_exact by lia. reflexivity.
Qed.

(** A float that holds an integer prints that integer, followed by a point
    and zeros when decimal places are asked for. *)
Lemma format_f_integer (prec : nat) (neg : bool) (p k : Z) :
  0 <= k ->
  format_f prec (Finite neg (p * 2 ^ k) (- k)) =
  sign_prefix neg +:+ decimal p +:+
  match prec with O => "" | S _ => "." +:+ fraction_digits prec 0 end.
Proof.
  intros Hk. unfold format_f.
  assert (Hs : 0 < 10 ^ Z.of_nat prec) by (apply Z.pow_pos_nonneg; lia).
  assert (H2 : 0 < 2 ^ k) by (apply Z.pow_pos_nonneg; lia).
  set (scale := 10 ^ Z.of_nat prec) in *.
  assert (Hn : (if 0 <=? - k then p * 2 ^ k * 2 ^ (- k) * scale
                else round_half_even (p * 2 ^ k * scale) (2 ^ (- - k)))
               = p * scale).
  { destruct (Z.leb_spec 0 (- k)).
    - assert (k = 0) by lia. subst k. change (- 0) with 0. change (2 ^ 0) with 1. lia.
    - rewrite Z.opp_involutive.
      replace (p * 2 ^ k * scale) with (p * scale * 2 ^ k) by lia.
      apply round_half_even_exact, H2. }
  rewrite Hn, Z.div_mul, Z.mod_mul by lia. reflexivity.
Qed.

(** A time of fewer than 54 bits converts to a float that [{:.1f}] prints
    as the digits of the int followed by [.0]. *)
Lemma format_time_one_decimal (t : Z) :
  Z.abs t < 2 ^ 53 ->
  exists d, float_of_int t = Returns d /\ format_f 1 d = str_int t +:+ ".0".
Proof.
  intros Ht. destruct (float_of_int_exact t Ht) as (k & Hk & E).
  eexists. split; [exact E|].
  rewrite format_f_integer by assumption. unfold str_int.
  now rewrite append_assoc.
Qed.

(** The same time at [{:.0f}]: the digits of the int alone. *)
Lemma format_time_no_decimal (t : Z) :
  Z.abs t < 2 ^ 53 ->
  exists d, float_of_int t = Returns d /\ format_f 0 d = str_int t.
Proof.
  intros Ht. destruct (float_of_int_exact t Ht) as (k & Hk & E).
  eexists. split; [exact E|].
  rewrite format_f_integer by assumption. unfold str_int.
  now rewrite append_empty_r.
Qed.

Lemma format_f_int_one_decimal (t : Z) :
  Z.abs t < 2 ^ 53 -> format_f_int 1 t = Returns (str_int t +:+ ".0").
Proof.
  intros Ht. destruct (format_time_one_decimal t Ht) as (d & E & F).
  unfold format_f_int. now rewrite E, <- F.
Qed.

Lemma format_f_int_no_decimal (t : Z) :
  Z.abs t < 2 ^ 53 -> format_f_int 0 t = Returns (str_int t).
Proof.
  intros Ht. destruct (format_time_no_decimal t Ht) as (d & E & F).
  unfold format_f_int. now rewrite E, <- F.
Qed.

(** Times of fewer than 54 bits are written into the file names exactly:
    [{:.0f}] gives the digits of the int and [{:.1f}] the same digits
    followed by [.0]. *)
Theorem format_f_int_exact (t : Z) :
  Z.abs t < 2 ^ 53 ->
  format_f_int 0 t = Returns (str_int t)
  /\ format_f_int 1 t = Returns (str_int t +:+ ".0").
Proof.
  intros Ht. destruct (float_of_int_exact t Ht) as (k & Hk & E).
  unfold format_f_int. rewrite E. cbn [bind].
  rewrite !format_f_integer by assumption. unfold str_int.
  split; f_equal.
  - now rewrite append_empty_r.
  - now rewrite append_assoc.
Qed.

Lemma format_f_int_exact_witness :
  Z.abs 250 < 2 ^ 53
  /\ format_f_int 0 250 = Returns "250"
  /\ format_f_int 1 250 = Returns "250.0".
Proof.
  split; [reflexivity|].
  exact (format_f_int_exact 250 eq_refl).
Defined.

(** An int of 1025 bits or more does not fit a float. *)
Theorem float_of_int_overflow (t : Z) :
  2 ^ 1024 <= Z.abs t -> float_of_int t = Raises OverflowError.
Proof.
  intros Ht. unfold float_of_int, nearest_double.
  assert (Hpow : 0 < 2 ^ 1024) by (apply Z.pow_pos_nonneg; lia).
  assert (Hp : 0 < Z.abs t) by lia.
  destruct (Z.eqb_spec (Z.abs t) 0); [lia|].
  rewrite floor_log2_ratio_one by assumption.
  assert (Hl : 1024 <= Z.log2 (Z.abs t)) by (apply Z.log2_le_pow2; lia).
  replace (Z.max (Z.log2 (Z.abs t) - 52) (-1074)) with (Z.log2 (Z.abs t) - 52) by lia.
  set (e := Z.log2 (Z.abs t) - 52).
  assert (He : 0 <= e) by (unfold e; lia).
  destruct (Z.leb_spec 0 e); [|lia].
  rewrite Z.mul_1_l.
  assert (H2 : 0 < 2 ^ e) by (apply Z.pow_pos_nonneg; lia).
  assert (Hm : 2 ^ 52 <= round_half_even (Z.abs t) (2 ^ e)).
  { etransitivity; [|apply round_half_even_lower].
    apply Z.div_le_lower_bound; [exact H2|].
    rewrite <- Z.pow_add_r by lia.
    replace (e + 52) with (Z.log2 (Z.abs t)) by (unfold e; lia).
    apply Z.log2_spec, Hp. }
  assert (Hbig : 2 ^ 1024 <= round_half_even (Z.abs t) (2 ^ e) * 2 ^ e).
  { assert (2 ^ 1024 <= 2 ^ 52 * 2 ^ e).
    { rewrite <- Z.pow_add_r by lia. apply Z.pow_le_mono_r; unfold e; lia. }
    nia. }
  destruct (Z.ltb_spec (round_half_even (Z.abs t) (2 ^ e) * 2 ^ e) (2 ^ 1024));
    [lia | reflexivity].
Qed.

Lemma float_of_int_overflow_witness :
  2 ^ 1024 <= Z.abs (2 ^ 1024)
  /\ float_of_int (2 ^ 1024) = Raises OverflowError.
Proof.
  split; [discriminate|].
  exact (float_of_int_overflow (2 ^ 1024) ltac:(discriminate)).
Defined.

(** ** The base directory as template text *)

Lemma format_literal_text_length (n : nat) :
  forall s r, (String.length s <= n)%nat ->
    format_literal_text s = Returns r ->
    (String.length r <= String.length s)%nat
    /\ (brace_free s = false -> (String.length r < String.length s)%nat).
Proof.
  induction n as [|n IH]; intros s r Hn H.
  - destruct s; [|cbn in Hn; lia]. injection H as <-. cbn. split; [lia | discriminate].
  - destruct s as [|c s]; [injection H as <-; cbn; split; [lia | discriminate]|].
    cbn [format_literal_text brace_free] in *. cbn [String.length] in Hn.
    destruct (Ascii.eqb c "{" || Ascii.eqb c "}") eqn:Eb.
    + destruct s as [|c' s]; [discriminate|].
      destruct (Ascii.eqb c' c); [|discriminate].
      destruct (format_literal_text s) as [r'|e] eqn:Er; [|discriminate].
      injection H as <-. cbn [String.length] in *.
      destruct (IH s r' ltac:(lia) Er) as [Hle _]. split; [lia | intros _; lia].
    + destruct (format_literal_text s) as [r'|e] eqn:Er; [|discriminate].
      injection H as <-. cbn [String.length negb andb].
      destruct (IH s r' ltac:(lia) Er) as [Hle Hlt].
      split; [lia | intros Hb; specialize (Hlt Hb); lia].
Qed.

(** Text without a brace comes out of [str.format] as it went in. *)
Lemma brace_free_formats (s : string) :
  brace_free s = true -> format_literal_text s = Returns s.
Proof.
  induction s as [|c s IH]; [reflexivity|].
  cbn [brace_free format_literal_text].
  destruct (Ascii.eqb c "{" || Ascii.eqb c "}"); [discriminate|].
  cbn [negb andb]. intros H. now rewrite (IH H).
Qed.

(** The base directory goes into the distance grid path unchanged exactly
    when it holds no brace: a doubled brace comes out single, any other
    brace is an error. *)
Theorem base_directory_verbatim_iff (s : string) :
  format_literal_text s = Returns s <-> brace_free s = true.
Proof.
  split.
  - intros H.
    destruct (format_literal_text_length (String.length s) s s (le_n _) H) as [_ Hlt].
    destruct (brace_free s); [reflexivity|]. specialize (Hlt eq_refl). lia.
  - apply brace_free_formats.
Qed.

(** ** Jobs whose command can and cannot be built *)

(** For a base directory without braces and a time of fewer than 54 bits
    the builder always returns, and the three paths carry the digits of the
    time: [<base>/distances_<s>d/mean_distance_<s>d_<time>.0.nc], the age
    grid [...AgeGrid-<time>.nc] and the prefix [<basename>_<time>.0]. *)
Theorem command_line_paths_exact
    (executable : string) (cfg : configuration) (j : job) :
  brace_free (output_base_dir cfg) = true ->
  Z.abs (time j) < 2 ^ 53 ->
  exists command,
    command_line executable cfg j = Returns command
    /\ nth_error command 3 =
       Some (output_base_dir cfg +:+ "/distances_" +:+
             format_f_float 1 (distance_grid_spacing cfg) +:+
             "d/mean_distance_" +:+
             format_f_float 1 (distance_grid_spacing cfg) +:+
             "d_" +:+ (str_int (time j) +:+ ".0") +:+ ".nc")
    /\ nth_error command 5 = Some (age_grid_prefix +:+ str_int (time j) +:+ ".nc")
    /\ List.last command "" =
       output_file_basename_prefix j +:+ "_" +:+ (str_int (time j) +:+ ".0").
Proof.
  intros Hb Ht.
  apply brace_free_formats in Hb.
  pose proof (format_f_int_no_decimal (time j) Ht) as H0.
  pose proof (format_f_int_one_decimal (time j) Ht) as H1.
  unfold format_f_int in H0, H1.
  destruct (float_of_int (time j)) as [d|e] eqn:Ed; [|discriminate].
  cbn [bind] in H0, H1. injection H0 as H0. injection H1 as H1.
  eexists. split; [exact (command_line_returns executable cfg j _ d Hb Ed)|].
  unfold distance_grid_path, age_grid_path. rewrite H0, H1.
  repeat split.
  change ["--"; ?p] with (["--"] ++ [p]).
  rewrite !app_assoc. apply last_last.
Qed.

Lemma command_line_paths_exact_witness :
  brace_free (output_base_dir user_input) = true
  /\ Z.abs (time (job_at user_input Rate 42)) < 2 ^ 53
  /\ exists command,
       command_line "python" user_input (job_at user_input Rate 42) = Returns command
       /\ nth_error command 3 = Some "./distances_0.1d/mean_distance_0.1d_42.0.nc"
       /\ nth_error command 5 = Some (age_grid_prefix +:+ "42.nc")
       /\ List.last command "" =
          "./sedimentation_output/predicted_rate/sed_rate_0.1d_42.0".
Proof.
  split; [reflexivity|]. split; [reflexivity|].
  exact (command_line_paths_exact "python" user_input (job_at user_input Rate 42)
           eq_refl eq_refl).
Defined.

(** A job whose command line cannot be built raises before anything is
    run: no external call is made for it. *)
Lemma generate_raises_without_call
    (env : environment) (cfg : configuration) (j : job) (w : world) (e : exn) :
  command_line (sys_executable env) cfg j = Raises e ->
  generate_predicted_sedimentation_grid env cfg j w = (w, [], Raises e).
Proof.
  intros H. unfold generate_predicted_sedimentation_grid, seq_exec, lift.
  now rewrite H.
Qed.



(** A base directory with a stray brace makes every job fail while its
    distance grid path is formatted, again before any external call. *)
Theorem stray_brace_makes_no_call
    (env : environment) (cfg : configuration) (j : job) (w : world) (e : exn) :
  format_literal_text (output_base_dir cfg) = Raises e ->
  generate_predicted_sedimentation_grid env cfg j w = (w, [], Raises e).
Proof.
  intros H. apply generate_raises_without_call.
  unfold command_line, distance_grid_filenames_format. now rewrite H.
Qed.

Lemma stray_brace_makes_no_call_witness :
  format_literal_text
    (output_base_dir (Configuration (CpusInt 4) "out{1" 0 250 1 true true
                        0.1%float 0.1%float))
  = Raises FormatError
  /\ generate_predicted_sedimentation_grid calm
       (Configuration (CpusInt 4) "out{1" 0 250 1 true true 0.1%float 0.1%float)
       (job_at user_input Rate 0) fresh
     = (fresh, [], Raises FormatError).
Proof.
  split; [reflexivity|].
  exact (stray_brace_makes_no_call calm
           (Configuration (CpusInt 4) "out{1" 0 250 1 true true 0.1%float 0.1%float)
           (job_at user_input Rate 0) fresh FormatError eq_refl).
Defined.

(** ** The plain loop *)

(** Each job of the loop builds its command and the external call
    returns. *)
Lemma for_each_all_return
    (env : environment) (cfg : configuration) (w : world)
    (js : list job) (cs : list (list string)) :
  Forall2 (fun j c => command_line (sys_executable env) cfg j = Returns c
                      /\ call_system_command env c = Returns tt) js cs ->
  for_each js (generate_predicted_sedimentation_grid env cfg) w
  = (w, map CallSystemCommand cs, Returns tt).
Proof.
  induction 1 as [|j c js cs [Hc Hr] _ IH]; [reflexivity|].
  cbn [for_each map]. unfold seq_exec at 1.
  unfold generate_predicted_sedimentation_grid at 1, seq_exec, lift, emit.
  rewrite Hc, Hr, IH. reflexivity.
Qed.

(** Without a pool the jobs run in the order of the times, one external
    call each, and when all calls return the block ends normally. *)
Theorem sequential_runs_every_job_in_order
    (env : environment) (cfg : configuration) (m : mode) (ts : list Z)
    (w : world) (cs : list (list string)) :
  truthy (use_all_cpus cfg) = false ->
  Forall2 (fun j c => command_line (sys_executable env) cfg j = Returns c
                      /\ call_system_command env c = Returns tt)
          (jobs cfg m ts) cs ->
  dispatch env cfg m ts w
  = (w, Print (mp_banner (parameters m)) :: map CallSystemCommand cs, Returns tt).
Proof.
  intros Hu H. unfold dispatch, seq_exec at 1 2, emit, lift, resolve_workers.
  rewrite Hu, (for_each_all_return env cfg w _ _ H). reflexivity.
Qed.

(** In the plain loop the first external call that raises ends the block:
    the exception leaves the loop and the jobs after it are never
    started. *)
Theorem sequential_stops_at_first_failure
    (env : environment) (cfg : configuration) (m : mode)
    (before after : list Z) (t : Z) (w : world)
    (cs : list (list string)) (c : list string) (e : exn) :
  truthy (use_all_cpus cfg) = false ->
  Forall2 (fun j c => command_line (sys_executable env) cfg j = Returns c
                      /\ call_system_command env c = Returns tt)
          (jobs cfg m before) cs ->
  command_line (sys_executable env) cfg (job_at cfg m t) = Returns c ->
  call_system_command env c = Raises e ->
  dispatch env cfg m (before ++ t :: after) w
  = (w,
     Print (mp_banner (parameters m)) :: map CallSystemCommand (cs ++ [c]),
     Raises e).
Proof.
  intros Hu H Hc He. unfold dispatch, seq_exec at 1 2, emit, lift, resolve_workers.
  rewrite Hu. cbn [bind app].
  assert (Hloop : for_each (jobs cfg m (before ++ t :: after))
                    (generate_predicted_sedimentation_grid env cfg) w
                  = (w, map CallSystemCommand (cs ++ [c]), Raises e)).
  { unfold jobs in *. rewrite map_app. cbn [map].
    induction H as [|j c0 js cs0 [Hc0 Hr0] _ IH].
    - cbn [app for_each map]. unfold seq_exec at 1.
      unfold generate_predicted_sedimentation_grid at 1, seq_exec, lift, emit.
      rewrite Hc, He. reflexivity.
    - cbn [app for_each map]. unfold seq_exec at 1.
      unfold generate_predicted_sedimentation_grid at 1, seq_exec, lift, emit.
      rewrite Hc0, Hr0, IH. reflexivity. }
  rewrite Hloop. reflexivity.
Qed.

Lemma sequential_runs_every_job_in_order_witness :
  truthy (use_all_cpus plain_loop) = false
  /\ Forall2 (fun j c => command_line (sys_executable calm) plain_loop j = Returns c
                         /\ call_system_command calm c = Returns tt)
             (jobs plain_loop Rate [0; 1; 2])
             (built_commands (sys_executable calm) plain_loop
                (jobs plain_loop Rate [0; 1; 2]))
  /\ dispatch calm plain_loop Rate [0; 1; 2] fresh
     = (fresh,
        Print (mp_banner (parameters Rate))
        :: map CallSystemCommand
             (built_commands (sys_executable calm) plain_loop
                (jobs plain_loop Rate [0; 1; 2])),
        Returns tt).
Proof.
  assert (H : Forall2
                (fun j c => command_line (sys_executable calm) plain_loop j = Returns c
                            /\ call_system_command calm c = Returns tt)
                (jobs plain_loop Rate [0; 1; 2])
                (built_commands (sys_executable calm) plain_loop
                   (jobs plain_loop Rate [0; 1; 2]))).
  { repeat constructor. }
  split; [reflexivity|]. split; [exact H|].
  exact (sequential_runs_every_job_in_order calm plain_loop Rate [0; 1; 2] fresh
           _ eq_refl H).
Defined.

Lemma sequential_stops_at_first_failure_witness :
  truthy (use_all_cpus plain_loop) = false
  /\ Forall2 (fun j c => command_line (sys_executable failing_at_one) plain_loop j
                         = Returns c
                         /\ call_system_command failing_at_one c = Returns tt)
             (jobs plain_loop Rate [0])
             (built_commands "/usr/bin/python3" plain_loop (jobs plain_loop Rate [0]))
  /\ dispatch failing_at_one plain_loop Rate ([0] ++ 1 :: [2]) fresh
     = (fresh,
        Print (mp_banner (parameters Rate))
        :: map CallSystemCommand
             (built_commands "/usr/bin/python3" plain_loop
                (jobs plain_loop Rate [0; 1])),
        Raises (OtherError "predictor failed")).
Proof.
  assert (H : Forall2
                (fun j c => command_line (sys_executable failing_at_one) plain_loop j
                            = Returns c
                            /\ call_system_command failing_at_one c = Returns tt)
                (jobs plain_loop Rate [0])
                (built_commands "/usr/bin/python3" plain_loop (jobs plain_loop Rate [0]))).
  { repeat constructor. }
  split; [reflexivity|]. split; [exact H|].
  exact (sequential_stops_at_first_failure failing_at_one plain_loop Rate
           [0] [2] 1 fresh _ _ (OtherError "predictor failed")
           eq_refl H eq_refl eq_refl).
Defined.

(** ** The pool beyond its cleanup *)

(** What the block around the pool does when the pool is made and the
    jobs are submitted. *)
Lemma pool_dispatch_submitted
    (env : environment) (cfg : configuration) (m : mode) (n : Z)
    (ts : list Z) (w : world) :
  pool_new env m = Returns tt -> pool_map_async env m = Returns tt ->
  pool_dispatch env cfg m n ts w
  = (World (fs w) (Some m),
     [PoolNew n; MapAsync (jobs cfg m ts) 1; PoolGet 999999]
     ++ cleanup_trace env m,
     cleanup_result env m (swallow_interrupt (pool_get env m))).
Proof.
  intros Hnew Hmap.
  unfold pool_dispatch, finally, except_keyboard_interrupt, new_pool,
    seq_exec, emit, lift, pool_close, pool_join, cleanup_trace, cleanup_result.
  rewrite Hnew, Hmap. cbn.
  destruct (pool_get env m) as [[]|[]]; cbn;
    destruct (pool_close_result env m) as [[]|e1]; cbn; try reflexivity;
    destruct (pool_join_result env m) as [[]|e2]; reflexivity.
Qed.

(** One block of the main program when a pool is asked for and the pool
    is made and fed. *)
Lemma dispatch_with_pool
    (env : environment) (cfg : configuration) (m : mode) (n : Z)
    (ts : list Z) (w : world) :
  resolve_workers env (use_all_cpus cfg) = Returns (PoolOf n) ->
  pool_new env m = Returns tt -> pool_map_async env m = Returns tt ->
  dispatch env cfg m ts w
  = (World (fs w) (Some m),
     Print (mp_banner (parameters m))
     :: [PoolNew n; MapAsync (jobs cfg m ts) 1; PoolGet 999999]
     ++ cleanup_trace env m,
     cleanup_result env m (swallow_interrupt (pool_get env m))).
Proof.
  intros Hr Hnew Hmap. unfold dispatch, seq_exec, emit, lift.
  rewrite Hr, (pool_dispatch_submitted env cfg m n ts w Hnew Hmap). reflexivity.
Qed.

(** On an output tree that is in place and with a pool, whether asked for
    by [True] or by a positive integer, an interrupt of the wait for the
    rate jobs does not end the script: when the rate pool has been closed
    and joined, the thickness block makes its own pool and submits all its
    jobs. *)
Theorem interrupted_rate_block_is_followed_by_thickness
    (env : environment) (cfg : configuration) (w : world) (n : Z) (ts : list Z) :
  populated cfg w ->
  resolve_workers env (use_all_cpus cfg) = Returns (PoolOf n) ->
  enabled cfg Rate = true -> enabled cfg Thickness = true ->
  times cfg = Returns ts ->
  (forall m, pool_new env m = Returns tt) ->
  (forall m, pool_map_async env m = Returns tt) ->
  pool_close_result env Rate = Returns tt ->
  pool_join_result env Rate = Returns tt ->
  pool_get env Rate = Raises KeyboardInterrupt ->
  main env cfg w
  = (World (fs w) (Some Thickness),
     [Print (mp_banner (parameters Rate));
      PoolNew n; MapAsync (jobs cfg Rate ts) 1; PoolGet 999999;
      PoolClose Rate; PoolJoin Rate;
      Print (mp_banner (parameters Thickness));
      PoolNew n; MapAsync (jobs cfg Thickness ts) 1; PoolGet 999999]
     ++ cleanup_trace env Thickness,
     cleanup_result env Thickness (swallow_interrupt (pool_get env Thickness))).
Proof.
  intros Hp Hr HR HT Hts Hnew Hmap Hclose Hjoin Hget.
  rewrite (main_on_populated env cfg w Hp).
  unfold run_jobs, seq_exec, lift. rewrite Hts, HR, HT.
  rewrite (dispatch_with_pool env cfg Rate n ts w Hr (Hnew Rate) (Hmap Rate)).
  unfold cleanup_result, cleanup_trace. rewrite Hget, Hclose, Hjoin.
  cbn [swallow_interrupt app].
  rewrite (dispatch_with_pool env cfg Thickness n ts _ Hr
             (Hnew Thickness) (Hmap Thickness)).
  unfold cleanup_result, cleanup_trace.
  destruct (pool_close_result env Thickness) as [[]|e1]; [|reflexivity].
  destruct (pool_join_result env Thickness) as [[]|e2]; reflexivity.
Qed.

(** When the constructor of the pool raises in a block that follows
    another pool block, the name [pool] still holds the earlier pool: the
    cleanup closes and joins that one, an interrupt is swallowed and any
    other exception goes on, unless the close or the join raises itself. *)
Theorem pool_dispatch_with_stale_pool
    (env : environment) (cfg : configuration) (m earlier : mode) (n : Z)
    (ts : list Z) (w : world) (e : exn) :
  pool_new env m = Raises e -> pool w = Some earlier ->
  pool_dispatch env cfg m n ts w
  = (w, PoolNew n :: cleanup_trace env earlier,
     cleanup_result env earlier (swallow_interrupt (Raises e))).
Proof.
  intros Hnew Hpool.
  unfold pool_dispatch, finally, except_keyboard_interrupt, new_pool,
    seq_exec, emit, lift, pool_close, pool_join, cleanup_trace, cleanup_result.
  rewrite Hnew.
  destruct e; cbn; rewrite !Hpool;
    destruct (pool_close_result env earlier) as [[]|e1]; cbn; rewrite ?Hpool;
    try reflexivity;
    destruct (pool_join_result env earlier) as [[]|e2]; reflexivity.
Qed.

Lemma pool_dispatch_with_stale_pool_witness :
  pool_new no_processes Thickness = Raises (OtherError "OSError")
  /\ pool (World (fs complete) (Some Rate)) = Some Rate
  /\ pool_dispatch no_processes user_input Thickness 4 [0; 1; 2]
       (World (fs complete) (Some Rate))
     = (World (fs complete) (Some Rate),
        [PoolNew 4; PoolClose Rate; PoolJoin Rate],
        Raises (OtherError "OSError")).
Proof.
  split; [reflexivity|]. split; [reflexivity|].
  exact (pool_dispatch_with_stale_pool no_processes user_input Thickness Rate 4
           [0; 1; 2] (World (fs complete) (Some Rate)) _ eq_refl eq_refl).
Defined.

Lemma pool_dispatch_without_pool_witness :
  pool_new no_processes Rate = Raises (OtherError "OSError")
  /\ pool fresh = None
  /\ pool_dispatch no_processes user_input Rate 4 [0; 1; 2] fresh
     = (fresh, [PoolNew 4], Raises NameError).
Proof.
  split; [reflexivity|]. split; [reflexivity|].
  exact (pool_dispatch_without_pool no_processes user_input Rate 4 [0; 1; 2]
           fresh _ eq_refl eq_refl).
Defined.

Lemma interrupted_rate_block_is_followed_by_thickness_witness :
  populated user_input complete
  /\ resolve_workers interrupted (use_all_cpus user_input) = Returns (PoolOf 4)
  /\ pool_get interrupted Rate = Raises KeyboardInterrupt
  /\ main interrupted user_input complete
     = (World (fs complete) (Some Thickness),
        [Print (mp_banner (parameters Rate));
         PoolNew 4; MapAsync (jobs user_input Rate (map Z.of_nat (seq 0 251))) 1;
         PoolGet 999999; PoolClose Rate; PoolJoin Rate;
         Print (mp_banner (parameters Thickness));
         PoolNew 4; MapAsync (jobs user_input Thickness (map Z.of_nat (seq 0 251))) 1;
         PoolGet 999999]
        ++ cleanup_trace interrupted Thickness,
        cleanup_result interrupted Thickness
          (swallow_interrupt (pool_get interrupted Thickness))).
Proof.
  split; [exact complete_is_populated|]. split; [reflexivity|].
  split; [reflexivity|].
  exact (interrupted_rate_block_is_followed_by_thickness interrupted user_input
           complete 4 (map Z.of_nat (seq 0 251)) complete_is_populated
           eq_refl eq_refl eq_refl eq_refl
           (fun _ => eq_refl) (fun _ => eq_refl) eq_refl eq_refl eq_refl).
Defined.

(** ** The layout of the output tree *)

Lemma ends_with_slash_append (x y : string) :
  y <> "" -> ends_with_slash (x +:+ y) = ends_with_slash y.
Proof.
  intros Hy. induction x as [|c x IH]; [reflexivity|].
  cbn [String.append ends_with_slash].
  destruct (x +:+ y) eqn:E; [|exact IH].
  destruct x; cbn in E; [congruence | discriminate].
Qed.

Lemma append_nonempty (x y : string) : y <> "" -> x +:+ y <> "".
Proof.
  intros Hy. destruct x; cbn; [exact Hy | discriminate].
Qed.

(** The base output directory ends with its own name. *)
Lemma sediment_output_dir_value (cfg : configuration) :
  exists x, sediment_output_dir cfg = x +:+ sediment_output_sub_dir.
Proof.
  unfold sediment_output_dir, os_path_join, join_component. cbn [fold_left].
  change (starts_with_slash sediment_output_sub_dir) with false. cbn match.
  destruct (_ || _).
  - eexists. reflexivity.
  - exists (output_base_dir cfg +:+ "/"). now rewrite append_assoc.
Qed.

Lemma join_onto_directory (r b : string) :
  r <> "" -> ends_with_slash r = false -> starts_with_slash b = false ->
  join_component r b = r +:+ "/" +:+ b.
Proof.
  intros Hr He Hb. unfold join_component. rewrite Hb, He.
  destruct (String.eqb_spec r ""); [contradiction | reflexivity].
Qed.

Lemma sediment_output_dir_shape (cfg : configuration) :
  sediment_output_dir cfg <> ""
  /\ ends_with_slash (sediment_output_dir cfg) = false.
Proof.
  destruct (sediment_output_dir_value cfg) as [x ->]. split.
  - apply append_nonempty. discriminate.
  - rewrite ends_with_slash_append by discriminate. reflexivity.
Qed.

Lemma output_dir_value (cfg : configuration) (m : mode) :
  output_dir cfg m = sediment_output_dir cfg +:+ "/" +:+ mp_sub_dir (parameters m).
Proof.
  destruct (sediment_output_dir_shape cfg) as [Hne He].
  unfold output_dir, os_path_join. cbn [fold_left].
  apply (join_onto_directory (sediment_output_dir cfg)); auto.
  destruct m; reflexivity.
Qed.

Lemma up_to_last_slash_append (a b : string) :
  up_to_last_slash b = "" -> up_to_last_slash (a +:+ String "/" b) = a +:+ "/".
Proof.
  intros Hb. induction a as [|c a IH].
  - cbn [String.append up_to_last_slash]. rewrite Hb. reflexivity.
  - cbn [String.append up_to_last_slash]. rewrite IH.
    destruct (a +:+ "/") eqn:E; [|reflexivity].
    destruct a; discriminate.
Qed.

Lemma rstrip_slash_append_slash (a : string) :
  rstrip_slash (a +:+ "/") = rstrip_slash a.
Proof.
  induction a as [|c a IH]; [reflexivity|].
  cbn [String.append rstrip_slash]. now rewrite IH.
Qed.

Lemma rstrip_slash_id (a : string) :
  ends_with_slash a = false -> rstrip_slash a = a.
Proof.
  induction a as [|c a IH]; [reflexivity|].
  cbn [ends_with_slash rstrip_slash]. destruct a as [|c' a].
  - cbn. intros ->. reflexivity.
  - intros H. rewrite (IH H). reflexivity.
Qed.

Lemma dirname_output_dir (cfg : configuration) (m : mode) :
  dirname (output_dir cfg m) = sediment_output_dir cfg.
Proof.
  destruct (sediment_output_dir_shape cfg) as [Hne He].
  rewrite output_dir_value. unfold dirname.
  change ("/" +:+ ?b) with (String "/" b).
  rewrite up_to_last_slash_append by (destruct m; reflexivity).
  rewrite rstrip_slash_append_slash, rstrip_slash_id by assumption.
  destruct (sediment_output_dir cfg); [congruence | reflexivity].
Qed.

(** Each mode directory lies directly inside the base output directory,
    so once that directory exists and the operating system has nothing
    against the [os.mkdir], the check of a mode directory does not fail:
    the directory is found or made, and no path disappears. *)
Theorem mode_directory_is_found_or_made
    (env : environment) (cfg : configuration) (m : mode) (w : world) :
  sediment_output_dir cfg ∈ fs w ->
  mkdir_refusal env (output_dir cfg m) = None ->
  dirname (output_dir cfg m) = sediment_output_dir cfg
  /\ exists w1 trace,
       ensure_directory env (output_dir cfg m) w = (w1, trace, Returns tt)
       /\ output_dir cfg m ∈ fs w1
       /\ fs w ⊆ fs w1.
Proof.
  intros Hbase Hr. split; [apply dirname_output_dir|].
  destruct (decide (output_dir cfg m ∈ fs w)) as [Hin|Hout].
  - exists w, []. rewrite ensure_directory_present by assumption.
    split; [reflexivity|]. split; [exact Hin | set_solver].
  - eexists _, _. rewrite ensure_directory_absent;
      [|exact Hout | exact Hr | right; now rewrite dirname_output_dir].
    split; [reflexivity|]. cbn. split; set_solver.
Qed.

Lemma sediment_output_dir_exists_after_first_check :
  sediment_output_dir user_input ∈ fs (World {[ "."; "./sedimentation_output" ]} None).
Proof.
  (match goal with |- ?P => apply (bool_decide_unpack P) end); vm_compute; exact I.
Defined.

Lemma mode_directory_is_found_or_made_witness :
  sediment_output_dir user_input ∈ fs (World {[ "."; "./sedimentation_output" ]} None)
  /\ mkdir_refusal calm (output_dir user_input Rate) = None
  /\ dirname (output_dir user_input Rate) = sediment_output_dir user_input.
Proof.
  split; [exact sediment_output_dir_exists_after_first_check|].
  split; [reflexivity|].
  exact (proj1 (mode_directory_is_found_or_made calm user_input Rate
                  (World {[ "."; "./sedimentation_output" ]} None)
                  sediment_output_dir_exists_after_first_check eq_refl)).
Defined.

Lemma fresh_run_ends_normally :
  main calm thickness_scenario fresh
  = (fst (fst (main calm thickness_scenario fresh)),
     snd (fst (main calm thickness_scenario fresh)), Returns tt).
Proof.
  vm_compute. reflexivity.
Defined.

Lemma main_success_populates_witness :
  main calm thickness_scenario fresh
  = (fst (fst (main calm thickness_scenario fresh)),
     snd (fst (main calm thickness_scenario fresh)), Returns tt)
  /\ populated thickness_scenario (fst (fst (main calm thickness_scenario fresh))).
Proof.
  split; [exact fresh_run_ends_normally|].
  exact (main_success_populates calm thickness_scenario fresh _ _
           fresh_run_ends_normally).
Defined.

(** ** One output prefix per mode and time *)

Lemma append_cancel_r (a b c : string) : a +:+ c = b +:+ c -> a = b.
Proof.
  revert b. induction a as [|x a IH]; intros [|y b] H; cbn in H.
  - reflexivity.
  - apply (f_equal String.length) in H. cbn in H. rewrite length_append in H. lia.
  - apply (f_equal String.length) in H. cbn in H. rewrite length_append in H. lia.
  - injection H as -> H. f_equal. now apply IH.
Qed.

Lemma decimal_value (a : N) :
  option_map N.of_uint (NilZero.uint_of_string (NilZero.string_of_uint (N.to_uint a)))
  = Some a.
Proof.
  pose proof (Unsigned.of_to a) as Ha.
  destruct (N.to_uint a) as [|d|d|d|d|d|d|d|d|d|d] eqn:E;
    [cbn in *; now subst | ..];
    (rewrite NilZero.usu by discriminate; cbn [option_map]; now rewrite Ha).
Qed.

Lemma decimal_inj (n n' : Z) :
  0 <= n -> 0 <= n' -> decimal n = decimal n' -> n = n'.
Proof.
  intros Hn Hn' H. unfold decimal in H.
  pose proof (decimal_value (Z.to_N n)) as V.
  rewrite H, decimal_value in V. injection V as V. lia.
Qed.

Lemma str_int_inj (t t' : Z) : str_int t = str_int t' -> t = t'.
Proof.
  unfold str_int.
  destruct (Z.ltb_spec t 0) as [Lt|Lt], (Z.ltb_spec t' 0) as [Lt'|Lt'];
    cbn [sign_prefix String.append]; intros H.
  - injection H as H. apply decimal_inj in H; lia.
  - destruct (decimal_digits (Z.abs t')) as [_ Hd]. rewrite <- H in Hd. discriminate.
  - destruct (decimal_digits (Z.abs t)) as [_ Hd]. rewrite H in Hd. discriminate.
  - apply decimal_inj in H; lia.
Qed.

Lemma basename_prefix_value (cfg : configuration) (m : mode) :
  basename_prefix cfg m =
  sediment_output_dir cfg +:+ "/" +:+ mp_sub_dir (parameters m) +:+ "/" +:+
  mp_basename (parameters m) +:+ format_f_float 1 (grid_spacing cfg) +:+ "d".
Proof.
  unfold basename_prefix, os_path_join. cbn [fold_left].
  rewrite join_onto_directory.
  - rewrite output_dir_value, !append_assoc. reflexivity.
  - rewrite output_dir_value. apply append_nonempty. discriminate.
  - rewrite output_dir_value, <- append_assoc.
    rewrite ends_with_slash_append by (destruct m; discriminate).
    destruct m; reflexivity.
  - destruct m; reflexivity.
Qed.

(** Two jobs of a run never share an output prefix: for times of fewer
    than 54 bits the prefix determines the mode and the time, so the
    predictors never write to each other's files. *)
Theorem output_prefixes_are_distinct
    (cfg : configuration) (m m' : mode) (t t' : Z) :
  Z.abs t < 2 ^ 53 -> Z.abs t' < 2 ^ 53 ->
  output_filename_prefix (job_at cfg m t) = output_filename_prefix (job_at cfg m' t') ->
  m = m' /\ t = t'.
Proof.
  intros Ht Ht'. unfold output_filename_prefix. cbn [time output_file_basename_prefix job_at].
  rewrite (format_f_int_one_decimal t Ht), (format_f_int_one_decimal t' Ht').
  cbn [bind]. intros [= H].
  rewrite !basename_prefix_value, !append_assoc in H.
  apply (inj (String.append (sediment_output_dir cfg))) in H.
  destruct m, m';
    change (mp_sub_dir (parameters Rate)) with "predicted_rate" in H;
    change (mp_sub_dir (parameters Thickness)) with "predicted_thickness" in H;
    change (mp_basename (parameters Rate)) with "sed_rate_" in H;
    change (mp_basename (parameters Thickness)) with "sed_thick_" in H;
    try (cbn [String.append] in H; discriminate H);
    repeat (apply (inj (String.append _)) in H);
    injection H as H;
    apply append_cancel_r, str_int_inj in H; auto.
Qed.

Lemma output_prefixes_are_distinct_witness :
  Z.abs 7 < 2 ^ 53 /\ Z.abs 7 < 2 ^ 53
  /\ (output_filename_prefix (job_at user_input Rate 7)
      = output_filename_prefix (job_at user_input Rate 7)
      -> Rate = Rate /\ 7 = 7).
Proof.
  split; [reflexivity|]. split; [reflexivity|].
  exact (output_prefixes_are_distinct user_input Rate Rate 7 7 eq_refl eq_refl).
Defined.

(** * Whole runs *)

(** ** Runs in a quiet environment *)

Lemma seq_exec_both {A B} (c : exec A) (k : A -> exec B)
    (w w1 w2 : world) (tr1 tr2 : list event) (a : A) (o : outcome B) :
  c w = (w1, tr1, Returns a) -> k a w1 = (w2, tr2, o) ->
  seq_exec c k w = (w2, tr1 ++ tr2, o).
Proof.
  intros H1 H2. unfold seq_exec. now rewrite H1, H2.
Qed.

(** In a quiet environment a directory whose parent exists is found or
    made; what is new among the paths was made by an [os.mkdir]. *)
Lemma ensure_directory_quiet (env : environment) (d : string) (w : world) :
  quiet env ->
  dirname d = "" \/ dirname d ∈ fs w ->
  exists w' tr,
    ensure_directory env d w = (w', tr, Returns tt)
    /\ d ∈ fs w' /\ fs w ⊆ fs w' /\ pool w' = pool w
    /\ (forall x, x ∈ fs w' -> x ∈ fs w \/ In (Mkdir x) tr)
    /\ filter is_dispatch tr = []
    /\ (d ∈ fs w -> tr = [] /\ w' = w)
    /\ (forall x, In (Mkdir x) tr -> x ∉ fs w).
Proof.
  intros Hq Hp. destruct (decide (d ∈ fs w)) as [Hin|Hout].
  - exists w, []. rewrite ensure_directory_present by assumption.
    split; [reflexivity|]. split; [exact Hin|]. split; [set_solver|].
    split; [reflexivity|]. split; [now left|]. split; [reflexivity|].
    split; [intros _; split; reflexivity | intros x []].
  - eexists _, _.
    rewrite (ensure_directory_absent env d w Hout (quiet_mkdir env Hq d) Hp).
    split; [reflexivity|]. cbn [fs pool].
    split; [set_solver|]. split; [set_solver|]. split; [reflexivity|].
    split; [|split; [reflexivity | split; [contradiction|]]].
    + intros x Hx. apply elem_of_union in Hx as [Hx|Hx]; [|now left].
      apply elem_of_singleton in Hx as ->. right. cbn. auto.
    + intros x [Hx|[Hx|[]]]; [discriminate Hx|]. now injection Hx as <-.
Qed.

(** Every job of a mode has a command line when the base directory is
    sound template text and the times fit a float. *)
Lemma jobs_are_buildable
    (executable : string) (cfg : configuration) (m : mode) (ts : list Z)
    (base : string) :
  format_literal_text (output_base_dir cfg) = Returns base ->
  (forall t, In t ts -> exists d, float_of_int t = Returns d) ->
  forall j, In j (jobs cfg m ts) ->
    exists c, command_line executable cfg j = Returns c.
Proof.
  intros Hb Ht j Hj. apply in_jobs in Hj as (t & Hin & ->).
  destruct (Ht t Hin) as [d Hd].
  eexists. exact (command_line_returns executable cfg (job_at cfg m t) base d Hb Hd).
Qed.

Lemma built_commands_all
    (env : environment) (cfg : configuration) (js : list job) :
  quiet env ->
  (forall j, In j js -> exists c, command_line (sys_executable env) cfg j = Returns c) ->
  Forall2 (fun j c => command_line (sys_executable env) cfg j = Returns c
                      /\ call_system_command env c = Returns tt)
          js (built_commands (sys_executable env) cfg js)
  /\ length (built_commands (sys_executable env) cfg js) = length js.
Proof.
  intros Hq. induction js as [|j js IH]; intros H.
  - split; [constructor | reflexivity].
  - destruct (H j (or_introl eq_refl)) as [c Hc].
    destruct (IH (fun j' Hj' => H j' (or_intror Hj'))) as [IH1 IH2].
    unfold built_commands in *. cbn [flat_map]. rewrite Hc. cbn [app length].
    split; [|now rewrite IH2].
    constructor; [|exact IH1]. split; [exact Hc | apply (quiet_call env Hq)].
Qed.

Lemma resolved_is_truthy (env : environment) (u : cpus_setting) :
  resolve_workers env u = Returns Sequential -> truthy u = false.
Proof.
  unfold resolve_workers. destruct (truthy u); [|reflexivity].
  destruct (num_cpus env u); discriminate.
Qed.

(** One block after its directory check, in a quiet environment. *)
Lemma dispatch_quiet
    (env : environment) (cfg : configuration) (m : mode) (ts : list Z)
    (w : world) (r : workers) (base : string) :
  quiet env ->
  resolve_workers env (use_all_cpus cfg) = Returns r ->
  format_literal_text (output_base_dir cfg) = Returns base ->
  (forall t, In t ts -> exists d, float_of_int t = Returns d) ->
  exists w',
    dispatch env cfg m ts w
    = (w', dispatch_trace (sys_executable env) cfg m ts r, Returns tt)
    /\ fs w' = fs w.
Proof.
  intros Hq Hr Hb Ht. destruct r as [n|].
  - exists (World (fs w) (Some m)).
    rewrite (dispatch_with_pool env cfg m n ts w Hr
               (quiet_new env Hq m) (quiet_map_async env Hq m)).
    unfold cleanup_trace, cleanup_result.
    rewrite (quiet_close env Hq m), (quiet_join env Hq m), (quiet_get env Hq m).
    split; reflexivity.
  - exists w.
    destruct (built_commands_all env cfg (jobs cfg m ts) Hq
                (jobs_are_buildable _ cfg m ts base Hb Ht)) as [HF _].
    unfold dispatch, seq_exec at 1 2, emit, lift. rewrite Hr.
    rewrite (for_each_all_return env cfg w _ _ HF). split; reflexivity.
Qed.

Lemma dispatch_trace_is_dispatch
    (executable : string) (cfg : configuration) (m : mode) (ts : list Z)
    (r : workers) :
  Forall (fun ev => is_mkdir ev = false) (dispatch_trace executable cfg m ts r).
Proof.
  unfold dispatch_trace. constructor; [reflexivity|].
  destruct r; [repeat constructor|].
  induction (built_commands executable cfg (jobs cfg m ts)); constructor; auto.
Qed.

(** One block of the main program in a quiet environment, once the base
    output directory exists. *)
Lemma block_quiet
    (env : environment) (cfg : configuration) (m : mode) (ts : list Z)
    (w : world) (r : workers) (base : string) :
  quiet env ->
  resolve_workers env (use_all_cpus cfg) = Returns r ->
  format_literal_text (output_base_dir cfg) = Returns base ->
  (forall t, In t ts -> exists d, float_of_int t = Returns d) ->
  sediment_output_dir cfg ∈ fs w ->
  exists w' tr,
    (if enabled cfg m then run_mode env cfg m ts else ret tt) w
    = (w',
       tr ++ (if enabled cfg m
              then dispatch_trace (sys_executable env) cfg m ts r else []),
       Returns tt)
    /\ (enabled cfg m = true -> output_dir cfg m ∈ fs w')
    /\ fs w ⊆ fs w'
    /\ (forall x, x ∈ fs w' -> x ∈ fs w \/ In (Mkdir x) tr)
    /\ filter is_dispatch tr = []
    /\ (forall x, In (Mkdir x) tr -> x ∉ fs w).
Proof.
  intros Hq Hr Hb Ht Hbase. destruct (enabled cfg m).
  - destruct (ensure_directory_quiet env (output_dir cfg m) w Hq)
      as (w1 & tr & E1 & Hin & Hsub & _ & Hnew & Hd & _ & Hmk).
    { right. now rewrite dirname_output_dir. }
    destruct (dispatch_quiet env cfg m ts w1 r base Hq Hr Hb Ht) as (w2 & E2 & Hfs).
    exists w2, tr. unfold run_mode.
    rewrite (seq_exec_both _ _ w w1 w2 tr _ tt _ E1 E2).
    rewrite Hfs. auto 7.
  - exists w, []. split; [reflexivity|].
    split; [discriminate|]. split; [set_solver|]. split; [now left|].
    split; [reflexivity | intros x []].
Qed.

Lemma no_mkdir_among_jobs
    (executable : string) (cfg : configuration) (m : mode) (ts : list Z)
    (r : workers) (x : string) :
  ~ In (Mkdir x)
       (if enabled cfg m then dispatch_trace executable cfg m ts r else []).
Proof.
  destruct (enabled cfg m); [|intros []].
  intros H.
  pose proof (dispatch_trace_is_dispatch executable cfg m ts r) as F.
  rewrite List.Forall_forall in F. specialize (F _ H). discriminate F.
Qed.

(** A run in a quiet environment from a tree in which the parent of the
    base output directory exists: the run ends normally, every directory
    that was missing has been made, and the jobs are those of a run on a
    complete tree. *)
Lemma main_quiet
    (env : environment) (cfg : configuration) (w : world) (ts : list Z)
    (r : workers) (base : string) :
  quiet env ->
  times cfg = Returns ts ->
  resolve_workers env (use_all_cpus cfg) = Returns r ->
  format_literal_text (output_base_dir cfg) = Returns base ->
  (forall t, In t ts -> exists d, float_of_int t = Returns d) ->
  dirname (sediment_output_dir cfg) = ""
  \/ dirname (sediment_output_dir cfg) ∈ fs w ->
  exists w' trace,
    main env cfg w = (w', trace, Returns tt)
    /\ populated cfg w'
    /\ fs w ⊆ fs w'
    /\ (forall x, x ∈ fs w' -> x ∈ fs w \/ In (Mkdir x) trace)
    /\ filter is_dispatch trace
       = filter is_dispatch (jobs_trace (sys_executable env) cfg ts r)
    /\ (forall x, In (Mkdir x) trace -> x ∉ fs w).
Proof.
  intros Hq Hts Hr Hb Ht Hparent.
  destruct (ensure_directory_quiet env (sediment_output_dir cfg) w Hq Hparent)
    as (w0 & tr0 & E0 & Hin0 & Hsub0 & _ & Hnew0 & Hd0 & _ & Hmk0).
  destruct (block_quiet env cfg Rate ts w0 r base Hq Hr Hb Ht Hin0)
    as (w1 & tr1 & E1 & Hdir1 & Hsub1 & Hnew1 & Hd1 & Hmk1).
  assert (Hin1 : sediment_output_dir cfg ∈ fs w1) by set_solver.
  destruct (block_quiet env cfg Thickness ts w1 r base Hq Hr Hb Ht Hin1)
    as (w2 & tr2 & E2 & Hdir2 & Hsub2 & Hnew2 & Hd2 & Hmk2).
  exists w2. eexists. split.
  { unfold main. eapply seq_exec_both; [exact E0|].
    eapply seq_exec_both; [unfold lift; rewrite Hts; reflexivity|].
    eapply seq_exec_both; [exact E1 | exact E2]. }
  split; [|split; [|split; [|split]]].
  - split; [set_solver|]. intros [] E; [specialize (Hdir1 E); set_solver | auto].
  - set_solver.
  - intros x Hx. rewrite !in_app_iff.
    destruct (Hnew2 x Hx) as [H1|H1]; [|tauto].
    destruct (Hnew1 x H1) as [H0|H0]; [|tauto].
    destruct (Hnew0 x H0); tauto.
  - unfold jobs_trace. cbn [app]. rewrite !filter_app, Hd0, Hd1, Hd2. reflexivity.
  - intros x. cbn [app]. rewrite !in_app_iff.
    intros [H|[[H|H]|[H|H]]].
    + now apply Hmk0.
    + specialize (Hmk1 x H). set_solver.
    + now apply no_mkdir_among_jobs in H.
    + specialize (Hmk2 x H). set_solver.
    + now apply no_mkdir_among_jobs in H.
Qed.


Lemma quiet_calm : quiet calm.
Proof.
  constructor; reflexivity.
Defined.

Lemma float_of_int_returns (t : Z) :
  Z.abs t < 2 ^ 53 -> exists d, float_of_int t = Returns d.
Proof.
  intros H. destruct (float_of_int_exact t H) as (k & _ & E). eauto.
Qed.

(** Times of fewer than 54 bits all convert to a float. *)
Lemma times_convert (ts : list Z) :
  forallb (fun t => Z.abs t <? 2 ^ 53) ts = true ->
  forall t, In t ts -> exists d, float_of_int t = Returns d.
Proof.
  intros H t Ht. rewrite forallb_forall in H. specialize (H t Ht).
  apply float_of_int_returns. now apply Z.ltb_lt.
Qed.

(** The jobs among the events of a block that went through. *)
Lemma filter_dispatch_trace
    (executable : string) (cfg : configuration) (m : mode) (ts : list Z)
    (r : workers) :
  filter is_dispatch (dispatch_trace executable cfg m ts r) =
  match r with
  | PoolOf _ => [MapAsync (jobs cfg m ts) 1]
  | Sequential =>
      map CallSystemCommand (built_commands executable cfg (jobs cfg m ts))
  end.
Proof.
  destruct r; [reflexivity|].
  unfold dispatch_trace. rewrite filter_cons_False by (intros []).
  induction (built_commands executable cfg (jobs cfg m ts)) as [|c l IH];
    [reflexivity|].
  cbn [map]. rewrite filter_cons_True by exact I. now rewrite IH.
Qed.

(** ** The worker count at zero *)

(** C1 (at the failing input). The integer 0 is not rejected: it is false
    in [if use_all_cpus:], so no [TypeError] is raised and the jobs of both
    modes, 251 each, are run one after another. *)
Theorem use_all_cpus_zero_is_not_rejected :
  (forall env, resolve_workers env (CpusInt 0) = Returns Sequential)
  /\ let '(_, trace, result) := main calm zero_cpus fresh in
     result = Returns tt
     /\ length (filter is_dispatch trace) = 502%nat.
Proof.
  split; [reflexivity|].
  pose (ts := map Z.of_nat (seq 0 251)).
  assert (Hts : times zero_cpus = Returns ts) by (vm_compute; reflexivity).
  assert (Hfl : forall t, In t ts -> exists d, float_of_int t = Returns d).
  { apply times_convert. vm_compute. reflexivity. }
  destruct (main_quiet calm zero_cpus fresh ts Sequential "."
              quiet_calm Hts eq_refl eq_refl Hfl)
    as (w' & trace & E & _ & _ & _ & Hd & _).
  { right. match goal with |- ?P => apply (bool_decide_unpack P) end.
    vm_compute. exact I. }
  rewrite E. split; [reflexivity|]. rewrite Hd. unfold jobs_trace.
  change (enabled zero_cpus Rate) with true.
  change (enabled zero_cpus Thickness) with true.
  rewrite filter_app, !filter_dispatch_trace, length_app, !length_map.
  rewrite !(proj2 (built_commands_all calm zero_cpus _ quiet_calm
                     (jobs_are_buildable _ zero_cpus _ ts "." eq_refl Hfl))).
  unfold jobs. rewrite !length_map. reflexivity.
Qed.

(** ** Re-running on an output tree *)




(** ** The pool that is never made *)

(** C9 (at the failing input). The pool is made inside the [try]: when
    [multiprocessing.Pool(...)] itself is interrupted or raises in the
    first block that asks for a pool, the name [pool] is unbound in the
    [finally] clause, so nothing is closed or joined and the script ends
    with [NameError], also when the exception was a [KeyboardInterrupt]
    that the [except] clause had swallowed; the other block is not
    reached. *)
Theorem pool_start_failure_ends_in_name_error
    (env : environment) (cfg : configuration) (w : world) (ts : list Z)
    (n : Z) (e : exn) :
  populated cfg w ->
  pool w = None ->
  times cfg = Returns ts ->
  resolve_workers env (use_all_cpus cfg) = Returns (PoolOf n) ->
  enabled cfg Rate = true ->
  pool_new env Rate = Raises e ->
  main env cfg w
  = (w, [Print (mp_banner (parameters Rate)); PoolNew n], Raises NameError).
Proof.
  intros Hp Hpool Hts Hr Hen Hnew.
  rewrite (main_on_populated env cfg w Hp).
  unfold run_jobs, seq_exec at 1, lift at 1. rewrite Hts, Hen.
  unfold seq_exec at 1.
  assert (E : dispatch env cfg Rate ts w
              = (w, [Print (mp_banner (parameters Rate)); PoolNew n],
                 Raises NameError)).
  { unfold dispatch, pool_dispatch, finally, except_keyboard_interrupt,
      new_pool, seq_exec, emit, lift, pool_close.
    rewrite Hr, Hnew. destruct e; cbn; rewrite Hpool; reflexivity. }
  now rewrite E.
Qed.

Lemma pool_start_failure_ends_in_name_error_witness :
  populated user_input complete
  /\ pool complete = None
  /\ times user_input = Returns (map Z.of_nat (seq 0 251))
  /\ resolve_workers interrupted_at_start (use_all_cpus user_input)
     = Returns (PoolOf 4)
  /\ enabled user_input Rate = true
  /\ pool_new interrupted_at_start Rate = Raises KeyboardInterrupt
  /\ main interrupted_at_start user_input complete
     = (complete,
        [Print (mp_banner (parameters Rate)); PoolNew 4],
        Raises NameError).
Proof.
  assert (Hts : times user_input = Returns (map Z.of_nat (seq 0 251)))
    by (vm_compute; reflexivity).
  split; [exact complete_is_populated|]. split; [reflexivity|].
  split; [exact Hts|]. split; [reflexivity|]. split; [reflexivity|].
  split; [reflexivity|].
  exact (pool_start_failure_ends_in_name_error interrupted_at_start user_input
           complete _ 4 KeyboardInterrupt complete_is_populated eq_refl Hts
           eq_refl eq_refl eq_refl).
Defined.

(** Once [multiprocessing.Pool(...)] has returned, the block around the
    pool is left on every path of the submission and of the wait after
    [pool.close()] and, if the close returned, [pool.join()].  A
    [KeyboardInterrupt] of the submission or of the
    wait is swallowed and any other exception goes on after the cleanup;
    an exception of the close or of the join itself takes the place of
    that outcome.  The wrapper run in the workers never lets an interrupt
    out. *)
Theorem pool_closed_once_made
    (env : environment) (cfg : configuration) (m : mode) (n : Z)
    (ts : list Z) (w : world) :
  pool_new env m = Returns tt ->
  pool_dispatch env cfg m n ts w
  = (World (fs w) (Some m),
     (PoolNew n :: MapAsync (jobs cfg m ts) 1 ::
      match pool_map_async env m with
      | Returns _ => [PoolGet 999999]
      | Raises _ => []
      end)
     ++ cleanup_trace env m,
     cleanup_result env m
       (swallow_interrupt (do _ <- pool_map_async env m; pool_get env m)))
  /\ (pool_close_result env m = Returns tt ->
      pool_join_result env m = Returns tt ->
      cleanup_trace env m = [PoolClose m; PoolJoin m]
      /\ cleanup_result env m
           (swallow_interrupt (do _ <- pool_map_async env m; pool_get env m))
         <> Raises KeyboardInterrupt)
  /\ forall j w0,
       snd (generate_predicted_sedimentation_grid_parallel_pool_function
              env cfg j w0)
       <> Raises KeyboardInterrupt.
Proof.
  intros Hnew. split; [|split; [|apply pool_function_swallows_interrupt]].
  - unfold pool_dispatch, finally, except_keyboard_interrupt, new_pool,
      seq_exec, emit, lift, pool_close, pool_join, cleanup_trace, cleanup_result.
    rewrite Hnew. cbn.
    destruct (pool_map_async env m) as [[]|e1].
    + destruct (pool_get env m) as [[]|[]]; cbn;
        destruct (pool_close_result env m) as [[]|e3]; cbn; try reflexivity;
        destruct (pool_join_result env m) as [[]|e4]; reflexivity.
    + destruct e1; cbn;
        destruct (pool_close_result env m) as [[]|e3]; cbn; try reflexivity;
        destruct (pool_join_result env m) as [[]|e4]; reflexivity.
  - intros Hc Hj. unfold cleanup_trace, cleanup_result. rewrite Hc, Hj.
    split; [reflexivity|].
    destruct (pool_map_async env m) as [[]|[]]; cbn; try discriminate;
      destruct (pool_get env m) as [[]|[]]; cbn; discriminate.
Qed.

Lemma pool_closed_once_made_witness :
  pool_new interrupted_twice Rate = Returns tt
  /\ pool_dispatch interrupted_twice user_input Rate 4 [0; 1; 2] fresh
     = (World (fs fresh) (Some Rate),
        [PoolNew 4; MapAsync (jobs user_input Rate [0; 1; 2]) 1; PoolGet 999999;
         PoolClose Rate; PoolJoin Rate],
        Raises KeyboardInterrupt).
Proof.
  split; [reflexivity|].
  exact (proj1 (pool_closed_once_made interrupted_twice user_input Rate 4
                  [0; 1; 2] fresh eq_refl)).
Defined.

(** ** The end-to-end scenario, whatever the other settings *)


